(** * TokenPriceService: USD price resolution with an off-chain / on-chain
    fallback chain and a per-address cache of refreshing subjects.

    Shallow embedding of [src/app/services/token-price.service.ts].

    - [BigNumber] values are unbounded integers ([Z]); [div] truncates toward
      zero and throws on a zero divisor.
    - An [Observable] is a cold, single-shot computation: subscribing to it
      runs it against the external collaborators (the [World]) and yields
      either one emitted value or an error, while appending every remote read
      it performs to the call log of the service and, for the shared
      reference feed, filling the replay buffer.
    - The service object owns the mutable [usdPriceCache$] map and the
      subjects allocated by [new RefreshingReplaySubject]. *)

From Stdlib Require Import ZArith String Ascii List Lia Bool.
From stdpp Require Import gmap strings list fin_maps.

Local Open Scope Z_scope.

(** ** BigNumber arithmetic (ethers v4 [BigNumber]) *)

Module BigNumber.

Definition t := Z.

Definition pow (b : t) (e : nat) : t := b ^ Z.of_nat e.

Definition mul (a b : t) : t := a * b.

Definition add (a b : t) : t := a + b.

Definition eq (a b : t) : bool := a =? b.

(** [a.div(b)]: throws "division by zero" when [b] is zero, otherwise the
    quotient truncated toward zero. *)
Definition div (a b : t) : option t :=
  if b =? 0 then None else Some (Z.quot a b).

End BigNumber.

(** ** Decimal strings: ethers' [bigNumberify] on strings and [parseUnits] *)

Definition is_digit (c : ascii) : bool :=
  let n := nat_of_ascii c in (48 <=? n)%nat && (n <=? 57)%nat.

Definition digit_value (c : ascii) : Z := Z.of_nat (nat_of_ascii c) - 48.

Fixpoint all_chars (p : ascii -> bool) (s : string) : bool :=
  match s with
  | EmptyString => true
  | String c s' => p c && all_chars p s'
  end.

Fixpoint digits_value (acc : Z) (s : string) : Z :=
  match s with
  | EmptyString => acc
  | String c s' => digits_value (10 * acc + digit_value c) s'
  end.

(** [bigNumberify(s)] on the strings [parseUnits] hands to it: an optional
    sign followed by decimal digits, the empty digit string reading as
    zero; any other character throws. *)
Definition bigNumberify_string (s : string) : option Z :=
  match s with
  | String "-" s' =>
      if all_chars is_digit s' then Some (- digits_value 0 s') else None
  | _ => if all_chars is_digit s then Some (digits_value 0 s) else None
  end.

(** [value.split('.')] *)
Fixpoint split_dot (s : string) : list string :=
  match s with
  | EmptyString => [EmptyString]
  | String c s' =>
      if Ascii.eqb c "." then EmptyString :: split_dot s'
      else match split_dot s' with
           | hd :: tl => String c hd :: tl
           | [] => [String c EmptyString]
           end
  end.

Definition is_decimal_char (c : ascii) : bool :=
  is_digit c || Ascii.eqb c "." || Ascii.eqb c ",".

(** [value.match(/^-?[0-9.,]+$/)] *)
Definition matches_decimal (s : string) : bool :=
  match s with
  | String "-" s' => negb (String.eqb s' "") && all_chars is_decimal_char s'
  | _ => negb (String.eqb s "") && all_chars is_decimal_char s
  end.

Fixpoint pad_zeros (n : nat) (s : string) : string :=
  match n with
  | O => s
  | S n' => pad_zeros n' (s ++ "0")
  end.

Definition or_zero (s : string) : string :=
  if String.eqb s "" then "0"%string else s.

(** [parseUnits(value, unitType)] for a numeric [unitType]: the decimal
    string scaled by [10^unitType], or a thrown error ([None]) when the
    string is not a plain decimal or has more fractional digits than
    [unitType]. *)
Definition parseUnits (value : string) (unitType : nat) : option Z :=
  if negb (matches_decimal value) then None
  else if (unitType =? 0)%nat then bigNumberify_string value
  else
    let negative := match value with String "-" _ => true | _ => false end in
    let value := match value with String "-" v => v | _ => value end in
    if String.eqb value "." then None
    else
      match split_dot value with
      | whole :: rest =>
          match rest with
          | _ :: _ :: _ => None
          | _ =>
              let whole := or_zero whole in
              let fraction := or_zero (hd EmptyString rest) in
              if (unitType <? String.length fraction)%nat then None
              else
                let fraction :=
                  pad_zeros (unitType - String.length fraction) fraction in
                match bigNumberify_string whole,
                      bigNumberify_string fraction with
                | Some wholeValue, Some fractionValue =>
                    let wei :=
                      BigNumber.add
                        (BigNumber.mul wholeValue (BigNumber.pow 10 unitType))
                        fractionValue in
                    Some (if negative then BigNumber.mul wei (-1) else wei)
                | _, _ => None
                end
          end
      | [] => None
      end.

(** ** External collaborators *)

(** What a subscription delivers: one emitted value, or an error. *)
Inductive outcome (A : Type) : Type :=
| Next (a : A)
| Error.
Arguments Next {A} a.
Arguments Error {A}.

(** [number | 'latest'] *)
Inductive BlockTag : Type :=
| BlockNumber (n : N)
| Latest.

(** Remote reads, in the order the subscriptions perform them. *)
Inductive Call : Type :=
| GetUSDPrice (tokenAddress : string)
| GetTokenUSDValue (helperAddress tokenAddress : string) (amount : Z)
    (oneSplitAddress : string) (block : BlockTag)
| GetExpectedReturn (fromToken toToken : string) (amount parts flags : Z)
    (oneSplitAddress : string) (block : option BlockTag)
| LatestAnswer (aggregatorAddress : string).

(** The injected services. [coinGecko] emits a JavaScript number, kept here
    by its rendering [String(price)], the only way the service reads it.
    [tokenHelper] stands for [getTokenUSDValue(..).call(null, block)] on the
    helper instance, [oneSplit] for the [returnAmount] of
    [OneSplitService.getExpectedReturn], and [chainLink n] for the [n]-th
    [latestAnswer().call()] issued by one subscription to the feed. *)
Record World : Type := {
  coinGecko : string -> outcome string;
  tokenHelper : string -> Z -> string -> BlockTag -> outcome Z;
  oneSplit :
    string -> string -> Z -> Z -> Z -> string -> option BlockTag -> outcome Z;
  chainLink : nat -> outcome Z
}.

(** [environment] constants used by the service. *)
Record Environment : Type := {
  ONE_SPLIT_CONTRACT_ADDRESS : string;
  TOKEN_HELPER_CONTRACT_ADDRESS : string;
  DAI_USD_CHAINLINK_ORACLE_CONTRACT_ADDRESS : string
}.

(** ** Observables and the rxjs operators the service uses *)

(** What a service instance has done and holds: the remote reads it has
    issued, in order, and the value buffered by the [shareReplay] of
    [daiUsdPriceBN$] once its source has completed. *)
Record Store : Type := {
  reads : list Call;
  replay : option Z
}.

(** A service that has read nothing and buffered nothing. *)
Definition fresh : Store := {| reads := []; replay := None |}.

(** The store after some more reads. *)
Definition logged (st : Store) (cs : list Call) : Store :=
  {| reads := reads st ++ cs; replay := replay st |}.

Definition Observable (A : Type) : Type :=
  World -> Store -> outcome A * Store.

Module Rx.

Definition of_ {A} (a : A) : Observable A := fun _ log => (Next a, log).

Definition throwError {A} : Observable A := fun _ log => (Error, log).

Definition mergeMap {A B} (project : A -> Observable B)
    (source : Observable A) : Observable B :=
  fun w log =>
    match source w log with
    | (Next a, log') => project a w log'
    | (Error, log') => (Error, log')
    end.

(** [map(f)]: an exception thrown by [f] becomes an error notification. *)
Definition map {A B} (project : A -> option B)
    (source : Observable A) : Observable B :=
  fun w log =>
    match source w log with
    | (Next a, log') =>
        match project a with
        | Some b => (Next b, log')
        | None => (Error, log')
        end
    | (Error, log') => (Error, log')
    end.

Definition catchError {A} (selector : unit -> Observable A)
    (source : Observable A) : Observable A :=
  fun w log =>
    match source w log with
    | (Next a, log') => (Next a, log')
    | (Error, log') => selector tt w log'
    end.

(** [combineLatest([a, b])]: both sources are subscribed, in order. An
    error of [a] is forwarded at once and unsubscribes [b]: the first
    request of [b] has been issued by then, but it is not answered, so [b]
    issues no further request and buffers nothing. When [a] emits, [b] runs
    to its end; the pair is emitted when both have emitted, and an error of
    [b] is forwarded. Answers are taken to arrive in that order: an error
    of [a] before any answer to [b], a value of [a] once [b] is done. *)
Definition combineLatest {A B} (a : Observable A) (b : Observable B)
    : Observable (A * B) :=
  fun w log =>
    let (ra, log1) := a w log in
    match ra with
    | Error =>
        let issued := skipn (length (reads log1)) (reads (snd (b w log1))) in
        (Error, logged log1 (firstn 1 issued))
    | Next x =>
        let (rb, log2) := b w log1 in
        match rb with
        | Next y => (Next (x, y), log2)
        | Error => (Error, log2)
        end
    end.

(** [take(1)] of a source that emits at most once. *)
Definition take1 {A} (source : Observable A) : Observable A := source.

(** [retry(count)]: on error, resubscribe to the source, at most [count]
    times; [source k] is the source as seen by the [k]-th subscription. *)
Fixpoint retry_from {A} (count : nat) (source : nat -> Observable A)
    (k : nat) : Observable A :=
  fun w log =>
    match source k w log with
    | (Next a, log') => (Next a, log')
    | (Error, log') =>
        match count with
        | O => (Error, log')
        | S count' => retry_from count' source (S k) w log'
        end
    end.

Definition retry {A} (count : nat) (source : nat -> Observable A)
    : Observable A :=
  retry_from count source 0.

(** [shareReplay({ bufferSize: 1, refCount: true })]: one subscription to
    the source is shared. Once the source has emitted and completed, its
    value stays in the buffer and every later subscriber is served from
    the buffer, without a new subscription to the source. An error of the
    source is passed on and buffers nothing, so the next subscriber
    subscribes to the source again. *)
Definition shareReplay (source : Observable Z) : Observable Z :=
  fun w log =>
    match replay log with
    | Some v => (Next v, log)
    | None =>
        match source w log with
        | (Next v, log') => (Next v, {| reads := reads log'; replay := Some v |})
        | (Error, log') => (Error, log')
        end
    end.

End Rx.

(** Performing one remote read: log it, deliver the collaborator's answer. *)
Definition request {A} (c : Call) (answer : World -> outcome A)
    : Observable A :=
  fun w log => (answer w, logged log [c]).

(** Subscribing on a fresh service: what is delivered, and the reads
    issued. *)
Definition subscribe {A} (o : Observable A) (w : World) : outcome A * list Call :=
  (fst (o w fresh), reads (snd (o w fresh))).

(** [source.pipe(op)] *)
Notation "source |> op" := (op source)
  (at level 62, left associativity, only parsing).

(** ** The service *)

Definition DAI_ADDRESS : string := "0x6B175474E89094C44Da98b954EedeAC495271d0F".
Definition SAI_ADDRESS : string := "0x89d24a6b4ccb1b6faa2625fe562bdd9a23260359".

(** Modelled from the spec: [zeroValueBN] is imported from [../utils], which
    is not part of the sources at hand; the spec's zero-price sentinel is
    "a FixedPointAmount of magnitude 0". *)
Definition zeroValueBN : Z := 0.

(** Modelled from the spec: [RefreshingReplaySubject] is imported from
    [../utils]; only its constructor call is visible. An instance is kept as
    the two constructor arguments, the factory of the observable to replay
    and the refresh interval in milliseconds. *)
Record RefreshingReplaySubject : Type := {
  factory : unit -> Observable Z;
  refreshInterval : Z
}.

(** A JavaScript reference read out of the cache object. *)
Inductive Ref : Type :=
| Undefined
| SubjectRef (handle : nat)
| ObjectPrototypeMember (name : string).

Definition truthy (r : Ref) : bool :=
  match r with
  | Undefined => false
  | _ => true
  end.

(** Property names every object literal inherits from [Object.prototype]. *)
Definition Object_prototype_names : list string :=
  ["constructor"; "__defineGetter__"; "__defineSetter__"; "hasOwnProperty";
   "__lookupGetter__"; "__lookupSetter__"; "isPrototypeOf";
   "propertyIsEnumerable"; "toString"; "valueOf"; "__proto__";
   "toLocaleString"]%string.

Definition inherited (key : string) : bool :=
  existsb (String.eqb key) Object_prototype_names.

(** [cache[key]] on an object literal: own properties first, then the
    prototype. *)
Definition get_property (cache : gmap string nat) (key : string) : Ref :=
  match cache !! key with
  | Some handle => SubjectRef handle
  | None => if inherited key then ObjectPrototypeMember key else Undefined
  end.

(** The mutable state of a [TokenPriceService] instance: the
    [usdPriceCache$] object and the subjects allocated so far, a handle being
    the allocation index. *)
Record TokenPriceService : Type := {
  usdPriceCache : gmap string nat;
  subjects : list RefreshingReplaySubject
}.

Definition new_service : TokenPriceService :=
  {| usdPriceCache := ∅; subjects := [] |}.

(** [blockNumber || 'latest'] *)
Definition or_latest (blockNumber : option BlockTag) : BlockTag :=
  match blockNumber with
  | None => Latest
  | Some (BlockNumber 0%N) => Latest
  | Some b => b
  end.

Section Service.

Variable env : Environment.

(** A parameter declared [oneSplitAddress = environment.ONE_SPLIT_CONTRACT_ADDRESS]. *)
Definition or_default (oneSplitAddress : option string) : string :=
  match oneSplitAddress with
  | Some a => a
  | None => ONE_SPLIT_CONTRACT_ADDRESS env
  end.

(** The source of [daiUsdPriceBN$] as its [k]-th subscription runs it: one
    [latestAnswer().call()] on the aggregator instance. *)
Definition latestAnswerCall (k : nat) : Observable Z :=
  request (LatestAnswer (DAI_USD_CHAINLINK_ORACLE_CONTRACT_ADDRESS env))
          (fun w => chainLink w k).

Definition daiUsdPriceBN : Observable Z :=
  latestAnswerCall |> Rx.retry 5 |> Rx.shareReplay.

Definition getTokenPriceFromHelper (tokenAddress : string)
    (tokenDecimals : nat) (blockNumber : option BlockTag)
    (oneSplitAddress : option string) : Observable Z :=
  let oneSplitAddress := or_default oneSplitAddress in
  let nominator := BigNumber.pow 10 tokenDecimals in
  request
    (GetTokenUSDValue (TOKEN_HELPER_CONTRACT_ADDRESS env)
       tokenAddress nominator oneSplitAddress (or_latest blockNumber))
    (fun w =>
       tokenHelper w tokenAddress nominator oneSplitAddress
         (or_latest blockNumber)).

(** The projection passed to [map] in [getTokenOneSplitPrice]. *)
Definition impliedPrice (tokenDecimals : nat) (quote : Z * Z) : option Z :=
  let '(returnAmount, daiUsdPriceBN) := quote in
  let nominator := BigNumber.pow 10 tokenDecimals in
  let nominator2 := BigNumber.pow 10 8 in
  let precision := 100000000 in
  match
    BigNumber.div
      (BigNumber.mul (BigNumber.mul nominator precision) daiUsdPriceBN)
      returnAmount
  with
  | Some q => BigNumber.div q nominator2
  | None => None
  end.

Definition getTokenOneSplitPrice (tokenAddress : string)
    (tokenDecimals : nat) (blockNumber : option BlockTag)
    (oneSplitAddress : option string) : Observable Z :=
  let oneSplitAddress := or_default oneSplitAddress in
  if String.eqb tokenAddress DAI_ADDRESS || String.eqb tokenAddress SAI_ADDRESS
  then Rx.of_ (BigNumber.pow 10 8)
  else
    let oneSplitReturn :=
      request
        (GetExpectedReturn DAI_ADDRESS tokenAddress (BigNumber.pow 10 18) 10
           zeroValueBN oneSplitAddress blockNumber)
        (fun w =>
           oneSplit w DAI_ADDRESS tokenAddress (BigNumber.pow 10 18) 10
             zeroValueBN oneSplitAddress blockNumber) in
    Rx.combineLatest oneSplitReturn daiUsdPriceBN
    |> Rx.map (impliedPrice tokenDecimals)
    |> Rx.catchError (fun _ => Rx.of_ zeroValueBN)
    |> Rx.take1.

Definition getTokenPriceBN (tokenAddress : string) (tokenDecimals : nat)
    (blockNumber : option BlockTag) (oneSplitAddress : option string)
    (useOffChain : bool) : Observable Z :=
  let oneSplitAddress := or_default oneSplitAddress in
  let onChainPrice :=
    getTokenPriceFromHelper tokenAddress tokenDecimals blockNumber
      (Some oneSplitAddress)
    |> Rx.mergeMap (fun price =>
         if BigNumber.eq price 0 then Rx.throwError else Rx.of_ price)
    |> Rx.catchError (fun _ =>
         getTokenOneSplitPrice tokenAddress tokenDecimals blockNumber
           (Some oneSplitAddress)) in
  if negb useOffChain then onChainPrice
  else
    let offChainPrice :=
      request (GetUSDPrice tokenAddress) (fun w => coinGecko w tokenAddress)
      |> Rx.map (fun price => parseUnits price 8) in
    offChainPrice |> Rx.catchError (fun _ => onChainPrice).

Definition getUsdTokenPrice (this : TokenPriceService)
    (tokenAddress : string) (tokenDecimals : nat)
    (blockNumber : option BlockTag) (oneSplitAddress : option string)
    : Ref * TokenPriceService :=
  let oneSplitAddress := or_default oneSplitAddress in
  if truthy (get_property (usdPriceCache this) tokenAddress)
  then (get_property (usdPriceCache this) tokenAddress, this)
  else
    let tokenPrice :=
      getTokenPriceBN tokenAddress tokenDecimals blockNumber
        (Some oneSplitAddress) true in
    let handle := length (subjects this) in
    let this' :=
      {| usdPriceCache := <[tokenAddress := handle]> (usdPriceCache this);
         subjects :=
           subjects this ++
           [{| factory := fun _ => tokenPrice; refreshInterval := 10000 |}] |}
    in
    (get_property (usdPriceCache this') tokenAddress, this').

(** The arguments of one [getUsdTokenPrice] call, and a run of calls. *)
Record Request : Type := {
  req_tokenAddress : string;
  req_tokenDecimals : nat;
  req_blockNumber : option BlockTag;
  req_oneSplitAddress : option string
}.

Definition serve (this : TokenPriceService) (r : Request)
    : Ref * TokenPriceService :=
  getUsdTokenPrice this (req_tokenAddress r) (req_tokenDecimals r)
    (req_blockNumber r) (req_oneSplitAddress r).

Definition serve_all (this : TokenPriceService) (rs : list Request)
    : TokenPriceService :=
  fold_left (fun s r => snd (serve s r)) rs this.

(** What a subscriber of the subject behind [r] is served: the observable
    its factory returns. *)
Definition subject_source (this : TokenPriceService) (r : Ref)
    : option (Observable Z) :=
  match r with
  | SubjectRef handle =>
      match subjects this !! handle with
      | Some subject => Some (factory subject tt)
      | None => None
      end
  | _ => None
  end.

End Service.

(** ** Vocabulary for the statements *)

(** The off-chain stage as [getTokenPriceBN] builds it: the CoinGecko
    number rendered and parsed at 8 decimals. *)
Definition offChainQuote (w : World) (tokenAddress : string) : outcome Z :=
  match coinGecko w tokenAddress with
  | Next price =>
      match parseUnits price 8 with
      | Some q => Next q
      | None => Error
      end
  | Error => Error
  end.

(** The answer of the helper contract to the read issued by
    [getTokenPriceFromHelper]. *)
Definition helperQuote (env : Environment) (w : World)
    (tokenAddress : string) (tokenDecimals : nat)
    (blockNumber : option BlockTag) (oneSplitAddress : option string)
    : outcome Z :=
  tokenHelper w tokenAddress (10 ^ Z.of_nat tokenDecimals)
    (or_default env oneSplitAddress) (or_latest blockNumber).

Definition helperCall (env : Environment) (tokenAddress : string)
    (tokenDecimals : nat) (blockNumber : option BlockTag)
    (oneSplitAddress : option string) : Call :=
  GetTokenUSDValue (TOKEN_HELPER_CONTRACT_ADDRESS env) tokenAddress
    (10 ^ Z.of_nat tokenDecimals) (or_default env oneSplitAddress)
    (or_latest blockNumber).

(** The [returnAmount] the aggregator answers to the quote requested by
    [getTokenOneSplitPrice]. *)
Definition aggregatorQuote (env : Environment) (w : World)
    (tokenAddress : string) (blockNumber : option BlockTag)
    (oneSplitAddress : option string) : outcome Z :=
  oneSplit w DAI_ADDRESS tokenAddress (10 ^ 18) 10 0
    (or_default env oneSplitAddress) blockNumber.

Definition aggregatorCall (env : Environment) (tokenAddress : string)
    (blockNumber : option BlockTag) (oneSplitAddress : option string)
    : Call :=
  GetExpectedReturn DAI_ADDRESS tokenAddress (10 ^ 18) 10 0
    (or_default env oneSplitAddress) blockNumber.

(** What one subscription to the reference feed delivers, and the reads it
    issues. *)
Definition feedQuote (env : Environment) (w : World) : outcome Z :=
  fst (subscribe (daiUsdPriceBN env) w).

Definition feedReads (env : Environment) (w : World) : list Call :=
  snd (subscribe (daiUsdPriceBN env) w).

(** What the feed's buffer holds after a subscription that delivered [q]
    has run to its end. *)
Definition buffered (q : outcome Z) : option Z :=
  match q with
  | Next v => Some v
  | Error => None
  end.

(** What a subscriber of the feed is served in a given store: the buffered
    value if there is one, and otherwise what a subscription to the source
    delivers. *)
Definition feedServed (env : Environment) (w : World) (st : Store)
    : outcome Z :=
  match replay st with
  | Some v => Next v
  | None => feedQuote env w
  end.

Definition is_stablecoin (tokenAddress : string) : bool :=
  String.eqb tokenAddress DAI_ADDRESS || String.eqb tokenAddress SAI_ADDRESS.

Definition is_on_chain (c : Call) : bool :=
  match c with
  | GetUSDPrice _ => false
  | _ => true
  end.

Definition is_aggregator_call (c : Call) : bool :=
  match c with
  | GetExpectedReturn _ _ _ _ _ _ _ => true
  | _ => false
  end.

Definition is_helper_call (c : Call) : bool :=
  match c with
  | GetTokenUSDValue _ _ _ _ _ => true
  | _ => false
  end.

Definition is_feed_read (c : Call) : bool :=
  match c with
  | LatestAnswer _ => true
  | _ => false
  end.

(** [String.prototype.toLowerCase] on ASCII text. *)
Definition lower_char (c : ascii) : ascii :=
  let n := nat_of_ascii c in
  if (65 <=? n)%nat && (n <=? 90)%nat then ascii_of_nat (n + 32) else c.

Fixpoint toLowerCase (s : string) : string :=
  match s with
  | EmptyString => EmptyString
  | String c s' => String (lower_char c) (toLowerCase s')
  end.

(** Token addresses are written with the [0x] prefix. *)
Definition has_0x_prefix (s : string) : bool :=
  match s with
  | String "0" (String "x" _) => true
  | _ => false
  end.

(** The value [getTokenOneSplitPrice] settles on for a token that is not
    special-cased: the implied price when both reads answer and the division
    goes through, the zero sentinel otherwise. *)
Definition impliedOrZero (tokenDecimals : nat) (quote feed : outcome Z) : Z :=
  match quote, feed with
  | Next returnAmount, Next daiUsd =>
      match impliedPrice tokenDecimals (returnAmount, daiUsd) with
      | Some p => p
      | None => zeroValueBN
      end
  | _, _ => zeroValueBN
  end.

(** Handles stored in the cache point at allocated subjects. *)
Definition handles_allocated (this : TokenPriceService) : Prop :=
  map_Forall (fun _ handle => (handle < length (subjects this))%nat)
             (usdPriceCache this).

(** A subject whose factory hands out a [getTokenPriceBN] pipeline. *)
Definition resolver_backed (env : Environment)
    (subject : RefreshingReplaySubject) : Prop :=
  exists tokenAddress d b a,
    factory subject tt = getTokenPriceBN env tokenAddress d b a true.

(** ** Sample environment and collaborators *)

Definition sample_env : Environment :=
  {| ONE_SPLIT_CONTRACT_ADDRESS := "0x000000000000000000000000000000000000a001";
     TOKEN_HELPER_CONTRACT_ADDRESS := "0x000000000000000000000000000000000000a002";
     DAI_USD_CHAINLINK_ORACLE_CONTRACT_ADDRESS :=
       "0x000000000000000000000000000000000000a003" |}.

(** Collaborators answering every request the same way. *)
Definition constant_world (offChain : outcome string) (helper : outcome Z)
    (aggregator : outcome Z) (feed : nat -> outcome Z) : World :=
  {| coinGecko := fun _ => offChain;
     tokenHelper := fun _ _ _ _ => helper;
     oneSplit := fun _ _ _ _ _ _ _ => aggregator;
     chainLink := feed |}.

Definition WETH_ADDRESS : string := "0xC02aaA39b223FE8D0A0e5C4F27eAD9083C756Cc2".

Definition dai_lowercase : string := "0x6b175474e89094c44da98b954eedeac495271d0f".

(** Every collaborator is down. *)
Definition offline : World :=
  constant_world Error Error Error (fun _ => Error).

(** CoinGecko quotes 1.01 USD; the chain is unreachable. *)
Definition quoted_off_chain : World :=
  constant_world (Next "1.01"%string) Error Error (fun _ => Error).

(** CoinGecko is down; the helper contract values one token at 0.99 USD. *)
Definition quoted_by_helper : World :=
  constant_world Error (Next 99000000) Error (fun _ => Error).

(** CoinGecko is down, the helper knows no route, the aggregator quotes
    [returnAmount] and the feed reads 1.00 USD. *)
Definition quoted_by_aggregator (returnAmount : Z) : World :=
  constant_world Error (Next 0) (Next returnAmount) (fun _ => Next (10 ^ 8)).


Definition request_for (tokenAddress : string) (tokenDecimals : nat)
    : Request :=
  {| req_tokenAddress := tokenAddress;
     req_tokenDecimals := tokenDecimals;
     req_blockNumber := None;
     req_oneSplitAddress := None |}.

(** The feed fails on its first [n] reads and answers [v] afterwards. *)
Definition flaky_feed (n : nat) (v : Z) (k : nat) : outcome Z :=
  if (k <? n)%nat then Error else Next v.

(** ** Counting reads and describing reachable caches *)

Definition is_off_chain_read (c : Call) : bool := negb (is_on_chain c).

Definition count_calls (p : Call -> bool) (log : list Call) : nat :=
  length (List.filter p log).

(** What every cache reached from a fresh service satisfies: as many keys as
    subjects, no key inherited from [Object.prototype], each key bound to a
    subject built for that very address with the 10000 ms interval, and no
    two keys sharing a subject. *)
Definition cache_consistent (env : Environment) (this : TokenPriceService)
    : Prop :=
  size (usdPriceCache this) = length (subjects this) /\
  (forall key handle,
     usdPriceCache this !! key = Some handle ->
     inherited key = false /\
     exists d b a,
       subjects this !! handle
       = Some {| factory := fun _ => getTokenPriceBN env key d b a true;
                 refreshInterval := 10000 |}) /\
  (forall k1 k2 handle,
     usdPriceCache this !! k1 = Some handle ->
     usdPriceCache this !! k2 = Some handle -> k1 = k2).

(** The addresses of a run of requests that can own a cache entry. *)
Definition cacheable_addresses (rs : list Request) : list string :=
  List.filter (fun key => negb (inherited key)) (List.map req_tokenAddress rs).

(** * Properties *)

(** ** Conversion of the off-chain price *)

Example parseUnits_two_and_a_half : parseUnits "2.5" 8 = Some 250000000.
Proof. reflexivity. Qed.

Example parseUnits_integer : parseUnits "2" 8 = Some 200000000.
Proof. reflexivity. Qed.

Example parseUnits_exponent_form : parseUnits "1e-9" 8 = None.
Proof. reflexivity. Qed.

Example parseUnits_nine_decimals : parseUnits "0.123456789" 8 = None.
Proof. reflexivity. Qed.

(** ** The reference feed *)

Lemma logged_logged (st : Store) (a b : list Call) :
  logged (logged st a) b = logged st (a ++ b).
Proof. unfold logged. simpl. by rewrite app_assoc. Qed.


Lemma logged_fresh (cs : list Call) : reads (logged fresh cs) = cs.
Proof. reflexivity. Qed.

Lemma logged_grows (st : Store) (c : Call) (cs : list Call) :
  logged st (c :: cs) <> st.
Proof.
  intros H. apply (f_equal reads) in H. simpl in H.
  rewrite <- (app_nil_r (reads st)) in H at 2. by apply app_inv_head in H.
Qed.


Section Feed.

Variable env : Environment.

Lemma retry_from_log (count k : nat) (w : World) (st : Store) :
  Rx.retry_from count (latestAnswerCall env) k w st =
  (fst (Rx.retry_from count (latestAnswerCall env) k w fresh),
   logged st
     (reads (snd (Rx.retry_from count (latestAnswerCall env) k w fresh)))).
Proof.
  revert k st. induction count as [|count IH]; intros k st; simpl;
    unfold latestAnswerCall, request; destruct (chainLink w k); simpl;
    try reflexivity.
  fold (latestAnswerCall env).
  rewrite (IH (S k) (logged st _)), (IH (S k) (logged fresh _)). simpl.
  by rewrite logged_logged.
Qed.

Lemma feedQuote_retry (w : World) :
  feedQuote env w = fst (Rx.retry_from 5 (latestAnswerCall env) 0 w fresh).
Proof.
  unfold feedQuote, subscribe, daiUsdPriceBN, Rx.shareReplay, Rx.retry.
  simpl replay. cbv iota.
  by destruct (Rx.retry_from 5 (latestAnswerCall env) 0 w fresh) as [[v|] st].
Qed.

Lemma feedReads_retry (w : World) :
  feedReads env w
  = reads (snd (Rx.retry_from 5 (latestAnswerCall env) 0 w fresh)).
Proof.
  unfold feedReads, subscribe, daiUsdPriceBN, Rx.shareReplay, Rx.retry.
  simpl replay. cbv iota.
  by destruct (Rx.retry_from 5 (latestAnswerCall env) 0 w fresh) as [[v|] st].
Qed.

(** A subscription to the feed with an empty buffer runs the source and
    buffers what it delivers. *)
Lemma daiUsdPriceBN_run (w : World) (st : Store) :
  replay st = None ->
  daiUsdPriceBN env w st =
  (feedQuote env w,
   {| reads := reads st ++ feedReads env w;
      replay := buffered (feedQuote env w) |}).
Proof.
  intros Hnone. rewrite feedQuote_retry, feedReads_retry.
  unfold daiUsdPriceBN, Rx.shareReplay, Rx.retry. rewrite Hnone.
  rewrite retry_from_log.
  destruct (Rx.retry_from 5 (latestAnswerCall env) 0 w fresh) as [[v|] st'];
    simpl; [reflexivity|].
  unfold logged. by rewrite Hnone.
Qed.

(** With a value in the buffer the source is left alone. *)
Lemma daiUsdPriceBN_replay (w : World) (st : Store) (v : Z) :
  replay st = Some v -> daiUsdPriceBN env w st = (Next v, st).
Proof.
  intros Hv. unfold daiUsdPriceBN, Rx.shareReplay. by rewrite Hv.
Qed.


End Feed.

(** ** The resolver, stage by stage *)

Section Resolver.

Variable env : Environment.

Lemma impliedPrice_formula (d : nat) (r f : Z) :
  r <> 0 ->
  impliedPrice d (r, f) =
  Some (Z.quot (Z.quot (10 ^ Z.of_nat d * 10 ^ 8 * f) r) (10 ^ 8)).
Proof.
  intros Hr. unfold impliedPrice, BigNumber.div, BigNumber.mul, BigNumber.pow.
  apply Z.eqb_neq in Hr. rewrite Hr. reflexivity.
Qed.

Lemma impliedPrice_zero_return (d : nat) (f : Z) : impliedPrice d (0, f) = None.
Proof. reflexivity. Qed.

Lemma is_stablecoin_false (tokenAddress : string) :
  tokenAddress <> DAI_ADDRESS -> tokenAddress <> SAI_ADDRESS ->
  is_stablecoin tokenAddress = false.
Proof.
  intros Hd Hs. unfold is_stablecoin.
  apply String.eqb_neq in Hd, Hs. by rewrite Hd, Hs.
Qed.

Lemma is_stablecoin_true (tokenAddress : string) :
  tokenAddress = DAI_ADDRESS \/ tokenAddress = SAI_ADDRESS ->
  is_stablecoin tokenAddress = true.
Proof. by intros [-> | ->]. Qed.

Lemma oneSplit_stablecoin tokenAddress d b a (w : World) (st : Store) :
  is_stablecoin tokenAddress = true ->
  getTokenOneSplitPrice env tokenAddress d b a w st = (Next (10 ^ 8), st).
Proof.
  unfold getTokenOneSplitPrice, is_stablecoin. by intros ->.
Qed.

(** The last stage for a token that is not special-cased, on a service
    whose feed buffer is empty. *)
Lemma oneSplit_other tokenAddress d b a (w : World) (st : Store) :
  is_stablecoin tokenAddress = false ->
  replay st = None ->
  getTokenOneSplitPrice env tokenAddress d b a w st =
  (Next (impliedOrZero d (aggregatorQuote env w tokenAddress b a)
                         (feedQuote env w)),
   match aggregatorQuote env w tokenAddress b a with
   | Next _ =>
       {| reads := reads st
                   ++ aggregatorCall env tokenAddress b a :: feedReads env w;
          replay := buffered (feedQuote env w) |}
   | Error =>
       logged st (aggregatorCall env tokenAddress b a
                  :: firstn 1 (feedReads env w))
   end).
Proof.
  unfold getTokenOneSplitPrice, is_stablecoin. intros -> Hnone.
  unfold Rx.take1, Rx.catchError, Rx.map, Rx.combineLatest, request.
  unfold impliedOrZero, aggregatorQuote, aggregatorCall.
  change (BigNumber.pow 10 18) with (10 ^ 18). change zeroValueBN with 0.
  rewrite (daiUsdPriceBN_run env w (logged st _) Hnone).
  destruct (oneSplit w _ _ _ _ _ _ _) as [r|].
  - destruct (feedQuote env w) as [f|];
      [destruct (impliedPrice d (r, f))|];
      unfold Rx.of_, logged; cbn [reads replay];
      by rewrite <- app_assoc.
  - cbn [snd reads logged]. rewrite drop_app_length.
    unfold Rx.of_. by rewrite logged_logged.
Qed.

(** The last stage when the feed buffer holds a value: the feed is not
    read. *)
Lemma oneSplit_replayed tokenAddress d b a (w : World) (st : Store) (v : Z) :
  is_stablecoin tokenAddress = false ->
  replay st = Some v ->
  getTokenOneSplitPrice env tokenAddress d b a w st =
  (Next (impliedOrZero d (aggregatorQuote env w tokenAddress b a) (Next v)),
   logged st [aggregatorCall env tokenAddress b a]).
Proof.
  unfold getTokenOneSplitPrice, is_stablecoin. intros -> Hv.
  unfold Rx.take1, Rx.catchError, Rx.map, Rx.combineLatest, request.
  unfold impliedOrZero, aggregatorQuote, aggregatorCall.
  change (BigNumber.pow 10 18) with (10 ^ 18). change zeroValueBN with 0.
  rewrite (daiUsdPriceBN_replay env w (logged st _) v Hv).
  destruct (oneSplit w _ _ _ _ _ _ _) as [r|].
  - by destruct (impliedPrice d (r, v)).
  - cbn [snd reads logged]. rewrite drop_all. simpl.
    unfold Rx.of_. by rewrite logged_logged.
Qed.

Lemma or_default_idem (a : option string) :
  or_default env (Some (or_default env a)) = or_default env a.
Proof. reflexivity. Qed.

Lemma oneSplit_resolved_address tokenAddress d b a :
  getTokenOneSplitPrice env tokenAddress d b (Some (or_default env a)) =
  getTokenOneSplitPrice env tokenAddress d b a.
Proof. reflexivity. Qed.

Lemma onChain_run tokenAddress d b a (w : World) (st : Store) :
  getTokenPriceBN env tokenAddress d b a false w st =
  match helperQuote env w tokenAddress d b a with
  | Next v =>
      if v =? 0
      then getTokenOneSplitPrice env tokenAddress d b a w
             (logged st [helperCall env tokenAddress d b a])
      else (Next v, logged st [helperCall env tokenAddress d b a])
  | Error =>
      getTokenOneSplitPrice env tokenAddress d b a w
        (logged st [helperCall env tokenAddress d b a])
  end.
Proof.
  unfold getTokenPriceBN. rewrite oneSplit_resolved_address.
  unfold getTokenPriceFromHelper, helperQuote, helperCall.
  rewrite or_default_idem.
  unfold Rx.catchError, Rx.mergeMap, request, BigNumber.pow, BigNumber.eq.
  cbn [negb].
  destruct (tokenHelper w _ _ _ _) as [v|]; [|reflexivity].
  unfold Rx.throwError, Rx.of_. by destruct (v =? 0).
Qed.

Lemma offChain_run tokenAddress d b a (w : World) (st : Store) :
  getTokenPriceBN env tokenAddress d b a true w st =
  match offChainQuote w tokenAddress with
  | Next q => (Next q, logged st [GetUSDPrice tokenAddress])
  | Error =>
      getTokenPriceBN env tokenAddress d b a false w
        (logged st [GetUSDPrice tokenAddress])
  end.
Proof.
  unfold getTokenPriceBN. cbn [negb].
  unfold Rx.catchError, Rx.map, request, offChainQuote.
  destruct (coinGecko w tokenAddress) as [price|]; [|reflexivity].
  by destruct (parseUnits price 8).
Qed.

(** Whatever the buffer holds, the last stage delivers the special-case
    constant, or the implied price computed from what the feed serves. *)
Lemma oneSplit_value tokenAddress d b a (w : World) (st : Store) :
  fst (getTokenOneSplitPrice env tokenAddress d b a w st)
  = Next (if is_stablecoin tokenAddress then 10 ^ 8
          else impliedOrZero d (aggregatorQuote env w tokenAddress b a)
                               (feedServed env w st)).
Proof.
  unfold feedServed.
  destruct (is_stablecoin tokenAddress) eqn:E.
  - by rewrite oneSplit_stablecoin.
  - destruct (replay st) as [v|] eqn:Hr.
    + by rewrite (oneSplit_replayed _ _ _ _ _ _ v).
    + by rewrite oneSplit_other.
Qed.

(** [getTokenOneSplitPrice] always emits. *)
Lemma oneSplit_emits tokenAddress d b a (w : World) (st : Store) :
  exists v, fst (getTokenOneSplitPrice env tokenAddress d b a w st) = Next v.
Proof. rewrite oneSplit_value. eauto. Qed.

(** So does the whole chain, with or without the off-chain stage. *)
Lemma chain_emits tokenAddress d b a useOffChain (w : World) (st : Store) :
  exists v,
    fst (getTokenPriceBN env tokenAddress d b a useOffChain w st) = Next v.
Proof.
  assert (Hon : forall st', exists v,
    fst (getTokenPriceBN env tokenAddress d b a false w st') = Next v).
  { intros st'. rewrite onChain_run.
    destruct (helperQuote env w tokenAddress d b a) as [v|];
      [destruct (v =? 0)|]; eauto using oneSplit_emits. }
  destruct useOffChain; [|apply Hon].
  rewrite offChain_run. destruct (offChainQuote w tokenAddress); eauto.
Qed.

End Resolver.

(** ** The cache of refreshing subjects *)

Section Cache.

Variable env : Environment.

Lemma get_property_undefined (cache : gmap string nat) (key : string) :
  get_property cache key = Undefined <->
  cache !! key = None /\ inherited key = false.
Proof.
  unfold get_property.
  destruct (cache !! key), (inherited key); split; try done; by intros [].
Qed.

Lemma truthy_false (r : Ref) : truthy r = false <-> r = Undefined.
Proof. by destruct r. Qed.

Lemma address_not_inherited (key : string) :
  has_0x_prefix key = true -> inherited key = false.
Proof.
  destruct key as [|c0 [|c1 rest]]; intros H.
  - discriminate.
  - destruct c0 as [[] [] [] [] [] [] [] []]; discriminate.
  - destruct c0 as [[] [] [] [] [] [] [] []]; try discriminate. reflexivity.
Qed.

Lemma getUsdTokenPrice_hit this a d b r handle :
  usdPriceCache this !! a = Some handle ->
  getUsdTokenPrice env this a d b r = (SubjectRef handle, this).
Proof.
  intros H. unfold getUsdTokenPrice, get_property. by rewrite H.
Qed.

Lemma getUsdTokenPrice_miss this a d b r :
  get_property (usdPriceCache this) a = Undefined ->
  getUsdTokenPrice env this a d b r =
  (SubjectRef (length (subjects this)),
   {| usdPriceCache := <[a := length (subjects this)]> (usdPriceCache this);
      subjects :=
        subjects this ++
        [{| factory := fun _ => getTokenPriceBN env a d b r true;
            refreshInterval := 10000 |}] |}).
Proof.
  intros H. unfold getUsdTokenPrice. rewrite H. simpl.
  unfold get_property. by rewrite lookup_insert_eq.
Qed.

(** A call through an inherited name hands back the prototype member and
    stores nothing. *)
Lemma getUsdTokenPrice_inherited this a d b r :
  usdPriceCache this !! a = None -> inherited a = true ->
  getUsdTokenPrice env this a d b r = (ObjectPrototypeMember a, this).
Proof.
  intros H Hi. unfold getUsdTokenPrice, get_property. by rewrite H, Hi.
Qed.

Lemma getUsdTokenPrice_cases this a d b r :
  snd (getUsdTokenPrice env this a d b r) = this \/
  get_property (usdPriceCache this) a = Undefined.
Proof.
  destruct (get_property (usdPriceCache this) a) eqn:E; [by right | |];
    left; unfold getUsdTokenPrice; by rewrite E.
Qed.

(** One call keeps every binding and every subject already there. *)
Lemma serve_keeps this q key handle subject :
  usdPriceCache this !! key = Some handle ->
  subjects this !! handle = Some subject ->
  usdPriceCache (snd (serve env this q)) !! key = Some handle /\
  subjects (snd (serve env this q)) !! handle = Some subject.
Proof.
  intros Hk Hs. unfold serve.
  destruct (getUsdTokenPrice_cases this (req_tokenAddress q)
              (req_tokenDecimals q) (req_blockNumber q)
              (req_oneSplitAddress q)) as [-> | Hmiss]; [done|].
  rewrite getUsdTokenPrice_miss by done. simpl.
  apply get_property_undefined in Hmiss as [Hnone _]. split.
  - rewrite lookup_insert_ne; [done | congruence].
  - rewrite lookup_app_l; [done | by eapply lookup_lt_Some].
Qed.

Lemma serve_all_keeps this qs key handle subject :
  usdPriceCache this !! key = Some handle ->
  subjects this !! handle = Some subject ->
  usdPriceCache (serve_all env this qs) !! key = Some handle /\
  subjects (serve_all env this qs) !! handle = Some subject.
Proof.
  revert this. induction qs as [|q qs IH]; intros this Hk Hs; [done|].
  simpl. destruct (serve_keeps this q key handle subject Hk Hs).
  by apply IH.
Qed.

(** The map only grows, and bindings are never overwritten. *)
Lemma serve_grows this q :
  usdPriceCache this ⊆ usdPriceCache (snd (serve env this q)) /\
  subjects this `prefix_of` subjects (snd (serve env this q)).
Proof.
  unfold serve.
  destruct (getUsdTokenPrice_cases this (req_tokenAddress q)
              (req_tokenDecimals q) (req_blockNumber q)
              (req_oneSplitAddress q)) as [-> | Hmiss]; [done|].
  rewrite getUsdTokenPrice_miss by done. simpl.
  apply get_property_undefined in Hmiss as [Hnone _]. split.
  - by apply insert_subseteq.
  - by apply prefix_app_r.
Qed.

Lemma serve_all_grows this qs :
  usdPriceCache this ⊆ usdPriceCache (serve_all env this qs) /\
  subjects this `prefix_of` subjects (serve_all env this qs).
Proof.
  revert this. induction qs as [|q qs IH]; intros this; [done|].
  simpl. destruct (serve_grows this q) as [Hc Hs].
  destruct (IH (snd (serve env this q))) as [Hc' Hs'].
  split; by etrans.
Qed.

Lemma new_service_allocated : handles_allocated new_service.
Proof. apply map_Forall_empty. Qed.

Lemma serve_allocated this q :
  handles_allocated this -> handles_allocated (snd (serve env this q)).
Proof.
  intros Hwf. unfold serve.
  destruct (getUsdTokenPrice_cases this (req_tokenAddress q)
              (req_tokenDecimals q) (req_blockNumber q)
              (req_oneSplitAddress q)) as [-> | Hmiss]; [done|].
  rewrite getUsdTokenPrice_miss by done. unfold handles_allocated. simpl.
  apply map_Forall_insert_2.
  - rewrite length_app. simpl. lia.
  - eapply map_Forall_impl; [exact Hwf|]. intros k h Hh. simpl in Hh.
    rewrite length_app. simpl. lia.
Qed.

Lemma serve_all_allocated this qs :
  handles_allocated this -> handles_allocated (serve_all env this qs).
Proof.
  revert this. induction qs as [|q qs IH]; intros this Hwf; [done|].
  simpl. by apply IH, serve_allocated.
Qed.

End Cache.

(** ** The stablecoin special case *)

Section Stablecoins.

Variable env : Environment.

(** C1, as stated, fails: with CoinGecko quoting DAI at 1.01 USD the
    resolver returns 101000000, not 10^8. *)
Lemma stablecoin_price_follows_off_chain_quote :
  is_stablecoin DAI_ADDRESS = true /\
  subscribe (getTokenPriceBN sample_env DAI_ADDRESS 18 None None true)
    quoted_off_chain
  = (Next 101000000, [GetUSDPrice DAI_ADDRESS]) /\
  101000000 <> 10 ^ 8.
Proof. split; [reflexivity | split; [reflexivity | discriminate]]. Qed.

(** C1 (amended): for the two hardcoded stablecoin addresses
    [getTokenOneSplitPrice] emits exactly 10^8 whatever the collaborators
    do, without any remote read; [getTokenPriceBN] emits exactly 10^8
    whenever the off-chain stage fails and the helper fails or answers
    zero. *)
Theorem stablecoin_price_is_one (w : World) tokenAddress d b a :
  tokenAddress = DAI_ADDRESS \/ tokenAddress = SAI_ADDRESS ->
  (forall log,
     getTokenOneSplitPrice env tokenAddress d b a w log = (Next (10 ^ 8), log))
  /\
  (offChainQuote w tokenAddress = Error ->
   helperQuote env w tokenAddress d b a = Error \/
   helperQuote env w tokenAddress d b a = Next 0 ->
   fst (subscribe (getTokenPriceBN env tokenAddress d b a true) w)
   = Next (10 ^ 8)).
Proof.
  intros Hst. apply is_stablecoin_true in Hst. split.
  - intros log. by apply oneSplit_stablecoin.
  - intros Hoff Hhelper. unfold subscribe.
    rewrite offChain_run, Hoff, onChain_run.
    destruct Hhelper as [-> | ->]; simpl; by rewrite oneSplit_stablecoin.
Qed.

(** C2, as stated, fails: with CoinGecko down the helper contract is read
    for DAI, and its non-zero answer is the result. *)
Lemma stablecoin_resolution_reads_helper :
  offChainQuote quoted_by_helper DAI_ADDRESS = Error /\
  subscribe (getTokenPriceBN sample_env DAI_ADDRESS 18 None None true)
    quoted_by_helper
  = (Next 99000000,
     [GetUSDPrice DAI_ADDRESS;
      GetTokenUSDValue (TOKEN_HELPER_CONTRACT_ADDRESS sample_env) DAI_ADDRESS
        (10 ^ 18) (ONE_SPLIT_CONTRACT_ADDRESS sample_env) Latest]).
Proof. split; reflexivity. Qed.

(** C2 (amended): when the off-chain source has failed and the token is
    one of the two hardcoded stablecoin addresses, the helper contract is
    read once; a non-zero answer is the result, and otherwise the result is
    the constant 10^8. In both cases neither the aggregator nor the
    reference feed is read. *)
Theorem stablecoin_fallback_skips_aggregator (w : World) tokenAddress d b a :
  tokenAddress = DAI_ADDRESS \/ tokenAddress = SAI_ADDRESS ->
  offChainQuote w tokenAddress = Error ->
  let run := subscribe (getTokenPriceBN env tokenAddress d b a true) w in
  fst run =
    match helperQuote env w tokenAddress d b a with
    | Next v => if v =? 0 then Next (10 ^ 8) else Next v
    | Error => Next (10 ^ 8)
    end /\
  snd run = [GetUSDPrice tokenAddress; helperCall env tokenAddress d b a] /\
  existsb is_aggregator_call (snd run) = false /\
  existsb is_feed_read (snd run) = false.
Proof.
  intros Hst Hoff. apply is_stablecoin_true in Hst. unfold subscribe. simpl.
  rewrite offChain_run, Hoff, onChain_run.
  destruct (helperQuote env w tokenAddress d b a) as [v|];
    [destruct (v =? 0)|]; rewrite ?oneSplit_stablecoin by done; done.
Qed.

End Stablecoins.

Lemma stablecoin_price_is_one_witness :
  fst (subscribe (getTokenPriceBN sample_env SAI_ADDRESS 18 None None true)
         (quoted_by_aggregator 0))
  = Next (10 ^ 8).
Proof.
  apply (stablecoin_price_is_one sample_env (quoted_by_aggregator 0)
           SAI_ADDRESS 18 None None).
  - right. reflexivity.
  - reflexivity.
  - right. reflexivity.
Defined.

Lemma stablecoin_fallback_skips_aggregator_witness :
  snd (subscribe (getTokenPriceBN sample_env DAI_ADDRESS 18 None None true)
         (quoted_by_aggregator 0))
  = [GetUSDPrice DAI_ADDRESS;
     helperCall sample_env DAI_ADDRESS 18 None None].
Proof.
  apply (stablecoin_fallback_skips_aggregator sample_env
           (quoted_by_aggregator 0) DAI_ADDRESS 18 None None).
  - left. reflexivity.
  - reflexivity.
Defined.

(** ** The fallback chain *)

Section FallbackChain.

Variable env : Environment.

(** C3, as stated for every token, fails on the last stage: for DAI, with
    CoinGecko down, the helper answering zero and the aggregator quoting
    [returnAmount = 0], the result is 10^8 and not the zero sentinel. *)
Lemma zero_return_amount_on_stablecoin :
  offChainQuote (quoted_by_aggregator 0) DAI_ADDRESS = Error /\
  helperQuote sample_env (quoted_by_aggregator 0) DAI_ADDRESS 18 None None
  = Next 0 /\
  aggregatorQuote sample_env (quoted_by_aggregator 0) DAI_ADDRESS None None
  = Next 0 /\
  fst (subscribe (getTokenPriceBN sample_env DAI_ADDRESS 18 None None true)
         (quoted_by_aggregator 0))
  = Next 100000000 /\
  100000000 <> zeroValueBN.
Proof. repeat split; try reflexivity. discriminate. Qed.

(** A CoinGecko number whose rendering [parseUnits] rejects counts as an
    off-chain failure: the helper contract is read next. *)
Example unparsable_quote_falls_back :
  subscribe (getTokenPriceBN sample_env WETH_ADDRESS 18 None None true)
    (constant_world (Next "1e-9"%string) (Next 5) Error (fun _ => Error))
  = (Next 5,
     [GetUSDPrice WETH_ADDRESS;
      helperCall sample_env WETH_ADDRESS 18 None None]).
Proof. reflexivity. Qed.

(** C3 (amended): with [useOffChain = true] the chain short-circuits in
    order. (a) If CoinGecko answers a price that [parseUnits] converts to
    [q] at 8 decimals, the result is [q] and no on-chain read is made.
    (b) If the off-chain stage fails and the helper answers a non-zero [v],
    the result is [v] and the aggregator is not asked. (c) If the off-chain
    stage fails, the helper answers zero or fails, the token is not one of
    the two hardcoded stablecoins, and the aggregator quotes
    [returnAmount = 0], the result is the zero sentinel. *)
Theorem fallback_chain_order (w : World) tokenAddress d b a :
  let run := subscribe (getTokenPriceBN env tokenAddress d b a true) w in
  (forall price q,
     coinGecko w tokenAddress = Next price -> parseUnits price 8 = Some q ->
     run = (Next q, [GetUSDPrice tokenAddress]) /\
     existsb is_on_chain (snd run) = false) /\
  (forall v,
     offChainQuote w tokenAddress = Error ->
     helperQuote env w tokenAddress d b a = Next v -> v <> 0 ->
     run = (Next v,
            [GetUSDPrice tokenAddress; helperCall env tokenAddress d b a]) /\
     existsb is_aggregator_call (snd run) = false) /\
  (offChainQuote w tokenAddress = Error ->
   helperQuote env w tokenAddress d b a = Next 0 \/
   helperQuote env w tokenAddress d b a = Error ->
   is_stablecoin tokenAddress = false ->
   aggregatorQuote env w tokenAddress b a = Next 0 ->
   fst run = Next zeroValueBN).
Proof.
  unfold subscribe. cbv zeta. split; [|split].
  - intros price q Hprice Hparse.
    rewrite offChain_run. unfold offChainQuote. by rewrite Hprice, Hparse.
  - intros v Hoff Hhelper Hv. apply Z.eqb_neq in Hv.
    rewrite offChain_run, Hoff, onChain_run, Hhelper. by rewrite Hv.
  - intros Hoff Hhelper Hst Hagg.
    rewrite offChain_run, Hoff, onChain_run.
    destruct Hhelper as [-> | ->]; simpl;
      rewrite oneSplit_other by done; rewrite Hagg; simpl;
      by destruct (feedQuote env w).
Qed.

(** C4: for a token that is not special-cased, with the aggregator quoting
    a non-zero [returnAmount = r] and the feed reading [f],
    [getTokenOneSplitPrice] emits 10^d * 10^8 * f / r / 10^8, both divisions
    truncating toward zero, in that order; for d = 18, r = 5 * 10^17 and
    f = 10^8 this is 2 * 10^8. *)
Theorem implied_price_formula (w : World) tokenAddress d b a (r f : Z) :
  tokenAddress <> DAI_ADDRESS -> tokenAddress <> SAI_ADDRESS ->
  aggregatorQuote env w tokenAddress b a = Next r -> r <> 0 ->
  feedQuote env w = Next f ->
  let result := fst (subscribe (getTokenOneSplitPrice env tokenAddress d b a) w) in
  result = Next (Z.quot (Z.quot (10 ^ Z.of_nat d * 10 ^ 8 * f) r) (10 ^ 8)) /\
  (d = 18%nat -> r = 5 * 10 ^ 17 -> f = 10 ^ 8 -> result = Next (2 * 10 ^ 8)).
Proof.
  intros Hd Hs Hagg Hr Hfeed result.
  assert (Hres : result =
    Next (Z.quot (Z.quot (10 ^ Z.of_nat d * 10 ^ 8 * f) r) (10 ^ 8))).
  { subst result. unfold subscribe. cbn [fst].
    rewrite oneSplit_value, is_stablecoin_false by done.
    unfold feedServed. cbn [replay fresh].
    rewrite Hagg, Hfeed. unfold impliedOrZero.
    by rewrite impliedPrice_formula. }
  split; [exact Hres|]. intros -> -> ->. rewrite Hres. reflexivity.
Qed.

(** C5: [getTokenOneSplitPrice] always emits a value and never an error,
    on a fresh service as in any later state of it: 10^8 for the
    special-cased stablecoins, and otherwise the implied price when the
    aggregator answers a non-zero [returnAmount] and the feed serves a
    reading, or the zero sentinel in every other case (zero [returnAmount],
    failed aggregator, failed feed). What the feed serves is what a
    subscription to it delivers, whatever reads were made before, unless an
    earlier resolution has left a value in its buffer. The full
    [getTokenPriceBN] chain always emits a value as well, with or without
    the off-chain stage. *)
Theorem resolution_never_fails (w : World) tokenAddress d b a (log : Store) :
  fst (getTokenOneSplitPrice env tokenAddress d b a w log)
  = Next (if is_stablecoin tokenAddress then 10 ^ 8
          else impliedOrZero d (aggregatorQuote env w tokenAddress b a)
                               (feedServed env w log)) /\
  (forall earlier : list Call,
     feedServed env w (logged fresh earlier) = feedQuote env w) /\
  (forall feed, impliedOrZero d (Next 0) feed = zeroValueBN) /\
  (forall feed, impliedOrZero d Error feed = zeroValueBN) /\
  (forall quote, impliedOrZero d quote Error = zeroValueBN) /\
  (forall useOffChain, exists v,
     fst (getTokenPriceBN env tokenAddress d b a useOffChain w log) = Next v).
Proof.
  split; [apply oneSplit_value|]. split; [reflexivity|]. repeat split.
  - by intros [].
  - by intros [[]|].
  - intros useOffChain. apply chain_emits.
Qed.

End FallbackChain.

Lemma fallback_chain_order_witness :
  subscribe (getTokenPriceBN sample_env WETH_ADDRESS 18 None None true)
    quoted_off_chain
  = (Next 101000000, [GetUSDPrice WETH_ADDRESS]) /\
  subscribe (getTokenPriceBN sample_env WETH_ADDRESS 18 None None true)
    quoted_by_helper
  = (Next 99000000,
     [GetUSDPrice WETH_ADDRESS;
      helperCall sample_env WETH_ADDRESS 18 None None]) /\
  fst (subscribe (getTokenPriceBN sample_env WETH_ADDRESS 18 None None true)
         (quoted_by_aggregator 0))
  = Next zeroValueBN.
Proof.
  split; [|split].
  - apply (fallback_chain_order sample_env quoted_off_chain WETH_ADDRESS
             18 None None) with (price := "1.01"%string); reflexivity.
  - apply (fallback_chain_order sample_env quoted_by_helper WETH_ADDRESS
             18 None None); [reflexivity | reflexivity | discriminate].
  - apply (fallback_chain_order sample_env (quoted_by_aggregator 0)
             WETH_ADDRESS 18 None None);
      [reflexivity | left; reflexivity | reflexivity | reflexivity].
Defined.

Lemma implied_price_formula_witness :
  fst (subscribe (getTokenOneSplitPrice sample_env WETH_ADDRESS 18 None None)
         (quoted_by_aggregator (5 * 10 ^ 17)))
  = Next (2 * 10 ^ 8).
Proof.
  apply (implied_price_formula sample_env (quoted_by_aggregator (5 * 10 ^ 17))
           WETH_ADDRESS 18 None None (5 * 10 ^ 17) (10 ^ 8));
    try reflexivity; discriminate.
Defined.

(** ** Which failures reach the caller *)

Section Failures.

Variable env : Environment.

Lemma serve_resolver_backed this q :
  Forall (resolver_backed env) (subjects this) ->
  Forall (resolver_backed env) (subjects (snd (serve env this q))).
Proof.
  intros Hall. unfold serve.
  destruct (getUsdTokenPrice_cases env this (req_tokenAddress q)
              (req_tokenDecimals q) (req_blockNumber q)
              (req_oneSplitAddress q)) as [-> | Hmiss]; [done|].
  rewrite getUsdTokenPrice_miss by done. simpl.
  apply Forall_app. split; [done|].
  apply Forall_cons. split; [|done]. unfold resolver_backed. simpl. eauto.
Qed.

Lemma serve_all_resolver_backed this qs :
  Forall (resolver_backed env) (subjects this) ->
  Forall (resolver_backed env) (subjects (serve_all env this qs)).
Proof.
  revert this. induction qs as [|q qs IH]; intros this Hall; [done|].
  simpl. by apply IH, serve_resolver_backed.
Qed.

(** C8, as stated, fails for [getTokenPriceFromHelper]: a failed helper
    read reaches its caller as an error. *)
Lemma helper_failure_reaches_caller :
  subscribe (getTokenPriceFromHelper sample_env WETH_ADDRESS 18 None None)
    offline
  = (Error, [helperCall sample_env WETH_ADDRESS 18 None None]).
Proof. reflexivity. Qed.

(** C8 (amended): [getTokenPriceBN] and [getTokenOneSplitPrice] never
    surface a failure to their caller, and neither does the factory of any
    subject that [getUsdTokenPrice] stores, since it hands out a
    [getTokenPriceBN] pipeline. [getTokenPriceFromHelper] has no recovery
    stage: it delivers exactly what the helper read delivers, failures
    included. *)
Theorem failure_propagation (w : World) tokenAddress d b a :
  subscribe (getTokenPriceFromHelper env tokenAddress d b a) w
  = (helperQuote env w tokenAddress d b a,
     [helperCall env tokenAddress d b a]) /\
  (forall useOffChain,
     fst (subscribe (getTokenPriceBN env tokenAddress d b a useOffChain) w)
     <> Error) /\
  fst (subscribe (getTokenOneSplitPrice env tokenAddress d b a) w) <> Error /\
  (forall history subject,
     subject ∈ subjects (serve_all env new_service history) ->
     fst (subscribe (factory subject tt) w) <> Error).
Proof.
  split; [reflexivity|]. split; [|split].
  - intros useOffChain.
    destruct (chain_emits env tokenAddress d b a useOffChain w fresh) as [v Hv].
    unfold subscribe. by rewrite Hv.
  - destruct (oneSplit_emits env tokenAddress d b a w fresh) as [v Hv].
    unfold subscribe. by rewrite Hv.
  - intros history subject Hin.
    pose proof (serve_all_resolver_backed new_service history
                  (Forall_nil_2 _)) as Hall.
    rewrite Forall_forall in Hall.
    destruct (Hall subject Hin) as (t & d' & b' & a' & ->).
    destruct (chain_emits env t d' b' a' true w fresh) as [v Hv].
    unfold subscribe. by rewrite Hv.
Qed.




End Failures.


(** ** Cache keys, entries and handles *)

Section CacheClaims.

Variable env : Environment.

(** C6, as stated, fails: the checksummed DAI address and its lowercase
    spelling differ only in letter case, yet they get two cache entries, and
    the lowercase spelling is not special-cased as a stablecoin. *)
Lemma letter_case_splits_cache_entries :
  toLowerCase DAI_ADDRESS = toLowerCase dai_lowercase /\
  (let first := getUsdTokenPrice sample_env new_service DAI_ADDRESS 18
                  None None in
   let second := getUsdTokenPrice sample_env (snd first) dai_lowercase 18
                   None None in
   fst first = SubjectRef 0 /\ fst second = SubjectRef 1 /\
   size (usdPriceCache (snd second)) = 2%nat) /\
  subscribe (getTokenOneSplitPrice sample_env dai_lowercase 18 None None)
    (quoted_by_aggregator 0)
  = (Next 0,
     [aggregatorCall sample_env dai_lowercase None None;
      LatestAnswer (DAI_USD_CHAINLINK_ORACLE_CONTRACT_ADDRESS sample_env)]).
Proof. repeat split; vm_compute; reflexivity. Qed.

Lemma is_stablecoin_spec (tokenAddress : string) :
  is_stablecoin tokenAddress = true <->
  tokenAddress = DAI_ADDRESS \/ tokenAddress = SAI_ADDRESS.
Proof.
  unfold is_stablecoin. rewrite orb_true_iff, !String.eqb_eq. tauto.
Qed.

(** C6 (amended): cache keys are compared as exact strings, without case
    normalization. Two [getUsdTokenPrice] calls with equal strings share
    one entry; calls with different strings, even ones differing only in
    letter case, create two independent entries. The stablecoin special
    case (a result without any remote read) applies exactly to the
    spellings [DAI_ADDRESS] and [SAI_ADDRESS]. *)
Theorem cache_keys_are_exact_strings this a1 a2 d1 b1 r1 d2 b2 r2 :
  get_property (usdPriceCache this) a1 = Undefined ->
  get_property (usdPriceCache this) a2 = Undefined ->
  let first := getUsdTokenPrice env this a1 d1 b1 r1 in
  let second := getUsdTokenPrice env (snd first) a2 d2 b2 r2 in
  (a1 = a2 -> fst second = fst first /\ snd second = snd first) /\
  (a1 <> a2 ->
   fst second <> fst first /\
   size (usdPriceCache (snd second)) = S (S (size (usdPriceCache this)))) /\
  (forall (w : World) tokenAddress d b a log,
     snd (getTokenOneSplitPrice env tokenAddress d b a w log) = log <->
     tokenAddress = DAI_ADDRESS \/ tokenAddress = SAI_ADDRESS).
Proof.
  intros H1 H2 first second. subst first second.
  rewrite (getUsdTokenPrice_miss env this a1 d1 b1 r1 H1). cbn [fst snd].
  apply get_property_undefined in H1 as [Hnone1 Hinh1].
  apply get_property_undefined in H2 as [Hnone2 Hinh2].
  split; [|split].
  - intros <-. by rewrite (getUsdTokenPrice_hit env _ a1 d2 b2 r2
                             (length (subjects this)))
      by (simpl; apply lookup_insert_eq).
  - intros Hne. rewrite getUsdTokenPrice_miss.
    + cbn [fst snd usdPriceCache subjects]. split.
      * rewrite length_app. simpl. intros [=]. lia.
      * rewrite !map_size_insert_None; [done | done |].
        by rewrite lookup_insert_ne.
    + apply get_property_undefined. simpl.
      by rewrite lookup_insert_ne.
  - intros w tokenAddress d b a log. rewrite <- is_stablecoin_spec.
    destruct (is_stablecoin tokenAddress) eqn:E.
    + by rewrite oneSplit_stablecoin.
    + split; [|done]. intros Heq. exfalso.
      destruct (replay log) as [v|] eqn:Hr.
      * rewrite (oneSplit_replayed env _ _ _ _ _ _ v) in Heq by done.
        by apply logged_grows in Heq.
      * rewrite oneSplit_other in Heq by done. cbn [snd] in Heq.
        destruct (aggregatorQuote env w tokenAddress b a);
          [|by apply logged_grows in Heq].
        apply (f_equal reads) in Heq. cbn [reads] in Heq.
        rewrite <- (app_nil_r (reads log)) in Heq at 2.
        by apply app_inv_head in Heq.
Qed.

(** C7: in any state the service can reach, the first [getUsdTokenPrice]
    call for an address (a key that is not a member name inherited from
    [Object.prototype], which no [0x]-prefixed string is) allocates exactly
    one subject, with a refresh interval of 10000 ms, under a handle no
    other key holds, and binds it to that address; whatever calls follow, a
    later call with the same address returns that same handle and changes
    nothing. A call never removes or rebinds a key and never drops a
    subject. *)
Theorem cache_entry_created_once (history : list Request) a d b r :
  let this := serve_all env new_service history in
  usdPriceCache this !! a = None -> inherited a = false ->
  let ref := fst (getUsdTokenPrice env this a d b r) in
  let this1 := snd (getUsdTokenPrice env this a d b r) in
  let handle := length (subjects this) in
  ref = SubjectRef handle /\
  usdPriceCache this1 = <[a := handle]> (usdPriceCache this) /\
  size (usdPriceCache this1) = S (size (usdPriceCache this)) /\
  (exists subject,
     subjects this1 = subjects this ++ [subject] /\
     refreshInterval subject = 10000) /\
  (forall key h, usdPriceCache this !! key = Some h -> h <> handle) /\
  (forall later d' b' r',
     let this2 := serve_all env this1 later in
     getUsdTokenPrice env this2 a d' b' r' = (ref, this2) /\
     subjects this2 !! handle = subjects this1 !! handle) /\
  (forall (s : TokenPriceService) (q : Request),
     usdPriceCache s ⊆ usdPriceCache (snd (serve env s q)) /\
     subjects s `prefix_of` subjects (snd (serve env s q))).
Proof.
  intros this Hnone Hinh ref this1 handle.
  assert (Hmiss : get_property (usdPriceCache this) a = Undefined)
    by by apply get_property_undefined.
  subst ref this1. rewrite (getUsdTokenPrice_miss env this a d b r Hmiss).
  cbn [fst snd usdPriceCache subjects]. fold handle.
  repeat split.
  - by apply map_size_insert_None.
  - eexists. split; [reflexivity | reflexivity].
  - intros key h Hh.
    pose proof (serve_all_allocated env new_service history
                  new_service_allocated) as Hwf.
    specialize (Hwf key h Hh). simpl in Hwf. subst handle. fold this in Hwf.
    lia.
  - match goal with
    | |- context [serve_all env ?s later] =>
        destruct (serve_all_keeps env s later a handle
          {| factory := fun _ => getTokenPriceBN env a d b r true;
             refreshInterval := 10000 |}) as [Hk Hs]
    end.
    + simpl. apply lookup_insert_eq.
    + simpl. subst handle. by rewrite lookup_app_r, Nat.sub_diag.
    + by apply getUsdTokenPrice_hit.
  - match goal with
    | |- context [serve_all env ?s later] =>
        destruct (serve_all_keeps env s later a handle
          {| factory := fun _ => getTokenPriceBN env a d b r true;
             refreshInterval := 10000 |}) as [Hk Hs]
    end.
    + simpl. apply lookup_insert_eq.
    + simpl. subst handle. by rewrite lookup_app_r, Nat.sub_diag.
    + rewrite Hs. subst handle. by rewrite lookup_app_r, Nat.sub_diag.
  - apply serve_grows.
  - apply serve_grows.
Qed.

(** C10: once [getUsdTokenPrice] has created the entry for an address,
    every later call with that address, whatever decimals, block number and
    router address it passes, returns the same subject, whose factory is
    the [getTokenPriceBN] pipeline built from the arguments of the first
    call. *)
Theorem later_arguments_ignored this a d1 b1 r1 later d2 b2 r2 :
  get_property (usdPriceCache this) a = Undefined ->
  let first := getUsdTokenPrice env this a d1 b1 r1 in
  let this2 := serve_all env (snd first) later in
  let again := getUsdTokenPrice env this2 a d2 b2 r2 in
  fst again = fst first /\ snd again = this2 /\
  subject_source this2 (fst again)
  = Some (getTokenPriceBN env a d1 b1 r1 true) /\
  (forall w : World,
     (fun o => subscribe o w) <$> subject_source this2 (fst again)
     = Some (subscribe (getTokenPriceBN env a d1 b1 r1 true) w)).
Proof.
  intros Hmiss first this2 again. subst first this2 again.
  rewrite (getUsdTokenPrice_miss env this a d1 b1 r1 Hmiss). cbn [fst snd].
  match goal with
  | |- context [serve_all env ?s later] =>
      destruct (serve_all_keeps env s later a (length (subjects this))
        {| factory := fun _ => getTokenPriceBN env a d1 b1 r1 true;
           refreshInterval := 10000 |}) as [Hk Hs]
  end.
  - simpl. apply lookup_insert_eq.
  - simpl. by rewrite lookup_app_r, Nat.sub_diag.
  - rewrite (getUsdTokenPrice_hit env _ a d2 b2 r2 _ Hk). cbn [fst snd].
    unfold subject_source. rewrite Hs. by simpl.
Qed.

End CacheClaims.

Lemma cache_keys_are_exact_strings_witness :
  fst (getUsdTokenPrice sample_env
         (snd (getUsdTokenPrice sample_env new_service DAI_ADDRESS 18
                 None None))
         dai_lowercase 18 None None)
  <> fst (getUsdTokenPrice sample_env new_service DAI_ADDRESS 18 None None).
Proof.
  apply (cache_keys_are_exact_strings sample_env new_service DAI_ADDRESS
           dai_lowercase 18 None None 18 None None);
    [reflexivity | reflexivity | discriminate].
Defined.

Lemma cache_entry_created_once_witness :
  fst (getUsdTokenPrice sample_env new_service DAI_ADDRESS 18 None None)
  = SubjectRef 0.
Proof.
  apply (cache_entry_created_once sample_env [] DAI_ADDRESS 18 None None);
    reflexivity.
Defined.

Lemma later_arguments_ignored_witness :
  let first :=
    getUsdTokenPrice sample_env new_service WETH_ADDRESS 18 None None in
  let this2 :=
    serve_all sample_env (snd first) [request_for DAI_ADDRESS 18] in
  subject_source this2
    (fst (getUsdTokenPrice sample_env this2 WETH_ADDRESS 6 (Some Latest)
            (Some DAI_ADDRESS)))
  = Some (getTokenPriceBN sample_env WETH_ADDRESS 18 None None true).
Proof.
  apply (later_arguments_ignored sample_env new_service WETH_ADDRESS 18
           None None [request_for DAI_ADDRESS 18] 6 (Some Latest)
           (Some DAI_ADDRESS)).
  reflexivity.
Defined.

Lemma failure_propagation_witness :
  let subject :=
    {| factory :=
         fun _ => getTokenPriceBN sample_env WETH_ADDRESS 18 None None true;
       refreshInterval := 10000 |} in
  fst (subscribe (factory subject tt) offline) <> Error.
Proof.
  intros subject.
  apply (proj2 (proj2 (proj2
           (failure_propagation sample_env offline WETH_ADDRESS 18 None None)))
           [request_for WETH_ADDRESS 18] subject).
  unfold serve_all, serve. cbn [fold_left request_for req_tokenAddress
    req_tokenDecimals req_blockNumber req_oneSplitAddress].
  rewrite getUsdTokenPrice_miss by reflexivity.
  apply list_elem_of_here.
Defined.

(** * Further properties of the service *)

(** ** Reads issued by a resolution *)

Section Reads.

Variable env : Environment.

Local Abbreviation read :=
  (LatestAnswer (DAI_USD_CHAINLINK_ORACLE_CONTRACT_ADDRESS env)).

(** One subscription to the feed stops at its first answer, or after six
    reads. *)
Lemma feed_shape (w : World) :
  exists k,
    (k <= 5)%nat /\
    feedReads env w = repeat read (S k) /\
    (forall j, (j < k)%nat -> chainLink w j = Error) /\
    feedQuote env w = chainLink w k.
Proof.
  rewrite feedQuote_retry, feedReads_retry. unfold Rx.retry.
  simpl. unfold latestAnswerCall, request.
  destruct (chainLink w 0) eqn:E0.
  { exists 0%nat. rewrite E0. repeat split; [lia | intros; lia]. }
  destruct (chainLink w 1) eqn:E1.
  { exists 1%nat. rewrite E1. repeat split; [lia|].
    intros j Hj. destruct j as [|j]; [done | lia]. }
  destruct (chainLink w 2) eqn:E2.
  { exists 2%nat. rewrite E2. repeat split; [lia|].
    intros j Hj. destruct j as [|[|j]]; try done. lia. }
  destruct (chainLink w 3) eqn:E3.
  { exists 3%nat. rewrite E3. repeat split; [lia|].
    intros j Hj. destruct j as [|[|[|j]]]; try done. lia. }
  destruct (chainLink w 4) eqn:E4.
  { exists 4%nat. rewrite E4. repeat split; [lia|].
    intros j Hj. destruct j as [|[|[|[|j]]]]; try done. lia. }
  exists 5%nat. repeat split; [|by destruct (chainLink w 5)
                               |intros j Hj; destruct j as [|[|[|[|[|j]]]]];
                                try done; lia
                               |by destruct (chainLink w 5)].
  lia.
Qed.

(** On an empty buffer a resolution behaves as on a fresh service, after
    the reads already made. *)
Lemma oneSplit_frame tokenAddress d b a (w : World) (st : Store) :
  replay st = None ->
  getTokenOneSplitPrice env tokenAddress d b a w st =
  (fst (getTokenOneSplitPrice env tokenAddress d b a w fresh),
   {| reads := reads st
               ++ reads (snd (getTokenOneSplitPrice env tokenAddress d b a w
                                fresh));
      replay := replay (snd (getTokenOneSplitPrice env tokenAddress d b a w
                               fresh)) |}).
Proof.
  intros Hnone. destruct (is_stablecoin tokenAddress) eqn:E.
  - rewrite !oneSplit_stablecoin by done. simpl. rewrite app_nil_r.
    destruct st. simpl in *. by subst.
  - rewrite !oneSplit_other by done.
    destruct (aggregatorQuote env w tokenAddress b a); [done|].
    simpl. unfold logged. by rewrite Hnone.
Qed.

Lemma chain_frame tokenAddress d b a useOffChain (w : World) (st : Store) :
  replay st = None ->
  getTokenPriceBN env tokenAddress d b a useOffChain w st =
  (fst (getTokenPriceBN env tokenAddress d b a useOffChain w fresh),
   {| reads := reads st
               ++ reads (snd (getTokenPriceBN env tokenAddress d b a
                                useOffChain w fresh));
      replay := replay (snd (getTokenPriceBN env tokenAddress d b a
                               useOffChain w fresh)) |}).
Proof.
  intros Hnone.
  assert (Hon : forall st', replay st' = None ->
    getTokenPriceBN env tokenAddress d b a false w st' =
    (fst (getTokenPriceBN env tokenAddress d b a false w fresh),
     {| reads := reads st'
                 ++ reads (snd (getTokenPriceBN env tokenAddress d b a false w
                                  fresh));
        replay := replay (snd (getTokenPriceBN env tokenAddress d b a false w
                                 fresh)) |})).
  { intros st' Hnone'. rewrite !onChain_run.
    destruct (helperQuote env w tokenAddress d b a) as [v|];
      [destruct (v =? 0)|];
      try (simpl; unfold logged; by rewrite Hnone');
      rewrite (oneSplit_frame _ _ _ _ _ (logged st' _)) by exact Hnone';
      rewrite (oneSplit_frame _ _ _ _ _ (logged fresh _)) by reflexivity;
      simpl; by rewrite <- app_assoc. }
  destruct useOffChain; [|by apply Hon].
  rewrite !offChain_run.
  destruct (offChainQuote w tokenAddress).
  - simpl. unfold logged. by rewrite Hnone.
  - rewrite (Hon (logged st _)) by exact Hnone.
    rewrite (Hon (logged fresh _)) by reflexivity.
    simpl. by rewrite <- app_assoc.
Qed.

(** X1: a feed subscription that delivers a value delivers the first
    answer among its reads: every earlier read failed, at most five did,
    and no read is issued after the answer. *)
Theorem feed_delivers_first_answer (w : World) (v : Z) :
  feedQuote env w = Next v ->
  exists k,
    (k <= 5)%nat /\
    (forall j, (j < k)%nat -> chainLink w j = Error) /\
    chainLink w k = Next v /\
    feedReads env w = repeat read (S k).
Proof.
  intros Hv. destruct (feed_shape w) as (k & Hk & Hreads & Hfail & Hq).
  exists k. repeat split; try done. by rewrite <- Hq.
Qed.

(** The reads of a resolution, in order: CoinGecko when enabled, then the
    helper, then the aggregator and the feed. *)
Lemma chain_log (w : World) tokenAddress d b a useOffChain :
  exists tail,
    snd (subscribe (getTokenPriceBN env tokenAddress d b a useOffChain) w)
    = (if useOffChain then [GetUSDPrice tokenAddress] else []) ++ tail /\
    (tail = [] /\ useOffChain = true \/
     tail = [helperCall env tokenAddress d b a] \/
     is_stablecoin tokenAddress = false /\
     exists k, (k <= 5)%nat /\
       tail = helperCall env tokenAddress d b a
              :: aggregatorCall env tokenAddress b a :: repeat read (S k)).
Proof.
  destruct (feed_shape w) as (k & Hk & Hreads & _ & _).
  assert (Hsplit : forall st, replay st = None -> exists tail,
    reads (snd (getTokenOneSplitPrice env tokenAddress d b a w st))
    = reads st ++ tail /\
    (tail = [] \/
     is_stablecoin tokenAddress = false /\
     exists k, (k <= 5)%nat /\
       tail = aggregatorCall env tokenAddress b a :: repeat read (S k))).
  { intros st Hnone. destruct (is_stablecoin tokenAddress) eqn:E.
    - rewrite oneSplit_stablecoin by done. exists [].
      split; [by rewrite app_nil_r | by left].
    - rewrite oneSplit_other by done. rewrite Hreads.
      destruct (aggregatorQuote env w tokenAddress b a).
      + eexists. split; [reflexivity|]. right. split; [done|]. eauto.
      + eexists. split; [reflexivity|]. right. split; [done|].
        exists 0%nat. split; [lia | reflexivity]. }
  assert (Hon : forall st, replay st = None -> exists tail,
    reads (snd (getTokenPriceBN env tokenAddress d b a false w st))
    = reads st ++ tail /\
    (tail = [helperCall env tokenAddress d b a] \/
     is_stablecoin tokenAddress = false /\
     exists k, (k <= 5)%nat /\
       tail = helperCall env tokenAddress d b a
              :: aggregatorCall env tokenAddress b a :: repeat read (S k))).
  { intros st Hnone. rewrite onChain_run.
    destruct (Hsplit (logged st [helperCall env tokenAddress d b a]) Hnone)
      as (tail & Htail & Hcases).
    assert (Hboth : exists tail',
      reads (snd (getTokenOneSplitPrice env tokenAddress d b a w
                    (logged st [helperCall env tokenAddress d b a])))
      = reads st ++ tail' /\
      (tail' = [helperCall env tokenAddress d b a] \/
       is_stablecoin tokenAddress = false /\
       exists k, (k <= 5)%nat /\
         tail' = helperCall env tokenAddress d b a
                 :: aggregatorCall env tokenAddress b a :: repeat read (S k))).
    { rewrite Htail. cbn [reads logged]. rewrite <- app_assoc.
      eexists. split; [reflexivity|].
      destruct Hcases as [-> | (Hst & k' & Hk' & ->)]; [by left|].
      right. split; [done|]. eauto. }
    destruct (helperQuote env w tokenAddress d b a) as [v|];
      [destruct (v =? 0)|]; eauto. }
  unfold subscribe. cbn [snd]. destruct useOffChain.
  - rewrite offChain_run. destruct (offChainQuote w tokenAddress).
    + exists []. eauto.
    + destruct (Hon (logged fresh [GetUSDPrice tokenAddress]) eq_refl)
        as (tail & -> & Htail).
      exists tail. split; [done|]. by right.
  - destruct (Hon fresh eq_refl) as (tail & -> & Htail).
    exists tail. split; [done|]. by right.
Qed.

Lemma count_feed_reads (n : nat) :
  count_calls is_feed_read (repeat read n) = n /\
  count_calls is_aggregator_call (repeat read n) = 0%nat /\
  count_calls is_helper_call (repeat read n) = 0%nat /\
  count_calls is_off_chain_read (repeat read n) = 0%nat /\
  forallb is_on_chain (repeat read n) = true /\
  length (repeat read n) = n.
Proof.
  unfold count_calls.
  induction n as [|n (IH1 & IH2 & IH3 & IH4 & IH5 & IH6)]; [done|].
  simpl. by rewrite IH1, IH2, IH3, IH4, IH5, IH6.
Qed.

(** X2: the read budget of one resolution. [getTokenPriceBN] asks
    CoinGecko exactly once when [useOffChain] is set and never otherwise,
    reads the helper at most once, asks the aggregator at most once and
    only when it has read the helper, reads the feed at most six times and
    only when it asks the aggregator, and so issues at most nine reads; for
    the hardcoded stablecoins the aggregator and the feed are never read. *)
Theorem resolution_read_budget (w : World) tokenAddress d b a useOffChain :
  let log :=
    snd (subscribe (getTokenPriceBN env tokenAddress d b a useOffChain) w) in
  count_calls is_off_chain_read log = (if useOffChain then 1 else 0)%nat /\
  (count_calls is_helper_call log <= 1)%nat /\
  (count_calls is_aggregator_call log <= count_calls is_helper_call log)%nat /\
  (count_calls is_feed_read log <= 6 * count_calls is_aggregator_call log)%nat /\
  (length log <= 9)%nat /\
  (is_stablecoin tokenAddress = true ->
   count_calls is_aggregator_call log = 0%nat /\
   count_calls is_feed_read log = 0%nat).
Proof.
  cbv zeta.
  destruct (chain_log w tokenAddress d b a useOffChain)
    as (tail & -> & [[-> ->] | [-> | (Hst & k & Hk & ->)]]).
  - unfold count_calls. simpl. repeat split; lia.
  - unfold count_calls. destruct useOffChain; simpl; repeat split; lia.
  - pose proof (count_feed_reads k) as (Cf & Ca & Ch & Co & _ & Hlen).
    unfold count_calls in *.
    destruct useOffChain; simpl; rewrite Cf, Ca, Ch, Co, Hlen;
      repeat split; try lia; congruence.
Qed.

(** X3: switching the off-chain stage off means CoinGecko is never asked,
    and a failed off-chain stage changes nothing but the log: the result is
    the one [useOffChain = false] gives, after the one CoinGecko read. *)
Theorem off_chain_stage_composes (w : World) tokenAddress d b a :
  forallb is_on_chain
    (snd (subscribe (getTokenPriceBN env tokenAddress d b a false) w)) = true /\
  (offChainQuote w tokenAddress = Error ->
   subscribe (getTokenPriceBN env tokenAddress d b a true) w
   = (fst (subscribe (getTokenPriceBN env tokenAddress d b a false) w),
      GetUSDPrice tokenAddress
      :: snd (subscribe (getTokenPriceBN env tokenAddress d b a false) w))).
Proof.
  split.
  - destruct (chain_log w tokenAddress d b a false)
      as (tail & -> & [[_ [=]] | [-> | (Hst & k & Hk & ->)]]); [done|].
    pose proof (count_feed_reads k) as (_ & _ & _ & _ & Hall & _).
    simpl. exact Hall.
  - intros Hoff. unfold subscribe. rewrite offChain_run, Hoff.
    by rewrite (chain_frame _ _ _ _ _ _ (logged fresh _)).
Qed.

End Reads.

Lemma resolution_read_budget_witness :
  (length (snd (subscribe
     (getTokenPriceBN sample_env DAI_ADDRESS 18 None None true)
     (quoted_by_aggregator 5))) <= 9)%nat /\
  count_calls is_aggregator_call
    (snd (subscribe
       (getTokenPriceBN sample_env DAI_ADDRESS 18 None None true)
       (quoted_by_aggregator 5))) = 0%nat.
Proof.
  split.
  - apply (resolution_read_budget sample_env (quoted_by_aggregator 5)
             DAI_ADDRESS 18 None None true).
  - apply (resolution_read_budget sample_env (quoted_by_aggregator 5)
             DAI_ADDRESS 18 None None true). reflexivity.
Defined.

Lemma feed_delivers_first_answer_witness :
  exists k,
    (k <= 5)%nat /\
    (forall j, (j < k)%nat -> flaky_feed 3 100000000 j = Error) /\
    flaky_feed 3 100000000 k = Next 100000000 /\
    feedReads sample_env
      (constant_world Error Error Error (flaky_feed 3 100000000))
    = repeat
        (LatestAnswer (DAI_USD_CHAINLINK_ORACLE_CONTRACT_ADDRESS sample_env))
        (S k).
Proof.
  apply (feed_delivers_first_answer sample_env
           (constant_world Error Error Error (flaky_feed 3 100000000))
           100000000).
  reflexivity.
Defined.

Lemma off_chain_stage_composes_witness :
  subscribe (getTokenPriceBN sample_env WETH_ADDRESS 18 None None true)
    quoted_by_helper
  = (fst (subscribe
            (getTokenPriceBN sample_env WETH_ADDRESS 18 None None false)
            quoted_by_helper),
     GetUSDPrice WETH_ADDRESS
     :: snd (subscribe
               (getTokenPriceBN sample_env WETH_ADDRESS 18 None None false)
               quoted_by_helper)).
Proof.
  apply (off_chain_stage_composes sample_env quoted_by_helper WETH_ADDRESS
           18 None None).
  reflexivity.
Defined.

(** ** Stages of the on-chain path *)

Section Stages.

Variable env : Environment.

(** X4: whatever the collaborators do, the only quote a resolution ever
    asks of the aggregator is from [DAI_ADDRESS] into the requested
    address, for an input of 10^18 in 10 parts with flags 0, at the router
    and block the caller gave; and it is asked only when the requested
    address is not the string [DAI_ADDRESS] or [SAI_ADDRESS] as written.
    (Another spelling of those addresses is quoted like any other
    token.) *)
Theorem aggregator_quotes_only_other_tokens (w : World) tokenAddress d b a
    useOffChain (c : Call) :
  In c (snd (subscribe
               (getTokenPriceBN env tokenAddress d b a useOffChain) w)) ->
  is_aggregator_call c = true ->
  c = GetExpectedReturn DAI_ADDRESS tokenAddress (10 ^ 18) 10 0
        (or_default env a) b /\
  tokenAddress <> DAI_ADDRESS /\ tokenAddress <> SAI_ADDRESS.
Proof.
  intros Hin Hagg.
  destruct (chain_log env w tokenAddress d b a useOffChain)
    as (tail & Hlog & Htail).
  rewrite Hlog in Hin. clear Hlog.
  assert (Hc : In c tail).
  { apply in_app_or in Hin as [Hin | Hin]; [|done].
    destruct useOffChain; [|done].
    destruct Hin as [<- | []]. discriminate. }
  destruct Htail as [[-> _] | [-> | (Hst & k & Hk & ->)]].
  - destruct Hc.
  - destruct Hc as [<- | []]. discriminate.
  - destruct Hc as [<- | [<- | Hc]]; [discriminate | |].
    + split; [reflexivity|]. unfold is_stablecoin in Hst.
      apply orb_false_iff in Hst as [Hd Hs].
      by apply String.eqb_neq in Hd, Hs.
    + apply repeat_spec in Hc. subst c. discriminate.
Qed.

(** X5: a block number of 0 is falsy, so [getTokenPriceFromHelper] reads
    the helper at ['latest'] for block 0 exactly as for no block at all,
    while any other block number is passed through; the aggregator quote of
    the same resolution is still requested at block 0. *)
Theorem block_zero_reads_latest (w : World) tokenAddress d a :
  getTokenPriceFromHelper env tokenAddress d (Some (BlockNumber 0)) a
  = getTokenPriceFromHelper env tokenAddress d None a /\
  getTokenPriceFromHelper env tokenAddress d (Some Latest) a
  = getTokenPriceFromHelper env tokenAddress d None a /\
  (forall n, n <> 0%N ->
     subscribe
       (getTokenPriceFromHelper env tokenAddress d (Some (BlockNumber n)) a) w
     = (tokenHelper w tokenAddress (10 ^ Z.of_nat d) (or_default env a)
          (BlockNumber n),
        [GetTokenUSDValue (TOKEN_HELPER_CONTRACT_ADDRESS env) tokenAddress
           (10 ^ Z.of_nat d) (or_default env a) (BlockNumber n)])) /\
  (is_stablecoin tokenAddress = false ->
   tokenHelper w tokenAddress (10 ^ Z.of_nat d) (or_default env a) Latest
   = Next 0 ->
   let log :=
     snd (subscribe
            (getTokenPriceBN env tokenAddress d (Some (BlockNumber 0)) a false)
            w) in
   In (GetTokenUSDValue (TOKEN_HELPER_CONTRACT_ADDRESS env) tokenAddress
         (10 ^ Z.of_nat d) (or_default env a) Latest) log /\
   In (GetExpectedReturn DAI_ADDRESS tokenAddress (10 ^ 18) 10 0
         (or_default env a) (Some (BlockNumber 0))) log).
Proof.
  split; [reflexivity|]. split; [reflexivity|]. split.
  - intros n Hn. unfold subscribe, getTokenPriceFromHelper, request.
    destruct n as [|p]; [done | reflexivity].
  - intros Hst Hhelper. unfold subscribe. cbn [snd]. rewrite onChain_run.
    unfold helperQuote. cbn [or_latest]. rewrite Hhelper.
    change (0 =? 0) with true. cbv iota.
    rewrite oneSplit_other by done.
    destruct (aggregatorQuote env w tokenAddress (Some (BlockNumber 0)) a);
      cbn [snd reads logged fresh app]; split;
      solve [by left | right; by left].
Qed.

(** X6: the helper's zero is never handed to the caller as a price. On the
    on-chain path a zero result means that the token is not a hardcoded
    stablecoin, that the helper answered zero or failed, and that the
    aggregator was asked; with the off-chain stage on, a zero result is
    either CoinGecko's own zero or that on-chain zero. *)
Theorem zero_result_provenance (w : World) tokenAddress d b a :
  (fst (subscribe (getTokenPriceBN env tokenAddress d b a false) w) = Next 0 ->
   is_stablecoin tokenAddress = false /\
   (helperQuote env w tokenAddress d b a = Next 0 \/
    helperQuote env w tokenAddress d b a = Error) /\
   In (aggregatorCall env tokenAddress b a)
      (snd (subscribe (getTokenPriceBN env tokenAddress d b a false) w)) /\
   impliedOrZero d (aggregatorQuote env w tokenAddress b a) (feedQuote env w)
   = 0) /\
  (fst (subscribe (getTokenPriceBN env tokenAddress d b a true) w) = Next 0 ->
   offChainQuote w tokenAddress = Next 0 \/
   offChainQuote w tokenAddress = Error /\
   fst (subscribe (getTokenPriceBN env tokenAddress d b a false) w) = Next 0).
Proof.
  unfold subscribe. cbn [fst snd]. split.
  - rewrite onChain_run.
    assert (Hsplit : forall st, replay st = None ->
      fst (getTokenOneSplitPrice env tokenAddress d b a w st) = Next 0 ->
      is_stablecoin tokenAddress = false /\
      In (aggregatorCall env tokenAddress b a)
         (reads (snd (getTokenOneSplitPrice env tokenAddress d b a w st))) /\
      impliedOrZero d (aggregatorQuote env w tokenAddress b a)
        (feedQuote env w) = 0).
    { intros st Hnone. destruct (is_stablecoin tokenAddress) eqn:E.
      - rewrite oneSplit_stablecoin by done. discriminate.
      - rewrite oneSplit_other by done. cbn [fst snd]. intros [= Hz].
        repeat split; [|done].
        destruct (aggregatorQuote env w tokenAddress b a);
          cbn [reads logged]; apply in_or_app; right; by left. }
    destruct (helperQuote env w tokenAddress d b a) as [v|] eqn:Hh.
    + destruct (v =? 0) eqn:Hv.
      * apply Z.eqb_eq in Hv. subst v. intros H.
        destruct (Hsplit (logged fresh _) eq_refl H) as (? & ? & ?). auto.
      * cbn [fst]. intros [= ->]. discriminate.
    + intros H. destruct (Hsplit (logged fresh _) eq_refl H) as (? & ? & ?). auto.
  - rewrite offChain_run.
    destruct (offChainQuote w tokenAddress) as [q|].
    + cbn [fst]. intros [= ->]. by left.
    + rewrite (chain_frame env _ _ _ _ _ _ (logged fresh _)) by reflexivity.
      cbn [fst]. intros H. right. by split.
Qed.

End Stages.

Lemma aggregator_quotes_only_other_tokens_witness :
  aggregatorCall sample_env WETH_ADDRESS None None
  = GetExpectedReturn DAI_ADDRESS WETH_ADDRESS (10 ^ 18) 10 0
      (or_default sample_env None) None /\
  WETH_ADDRESS <> DAI_ADDRESS /\ WETH_ADDRESS <> SAI_ADDRESS.
Proof.
  apply (aggregator_quotes_only_other_tokens sample_env
           (quoted_by_aggregator 5) WETH_ADDRESS 18 None None true).
  - vm_compute. auto.
  - reflexivity.
Defined.

Lemma block_zero_reads_latest_witness :
  let log :=
    snd (subscribe
           (getTokenPriceBN sample_env WETH_ADDRESS 18 (Some (BlockNumber 0))
              None false)
           (quoted_by_aggregator 5)) in
  In (GetTokenUSDValue (TOKEN_HELPER_CONTRACT_ADDRESS sample_env) WETH_ADDRESS
        (10 ^ Z.of_nat 18) (or_default sample_env None) Latest) log /\
  In (GetExpectedReturn DAI_ADDRESS WETH_ADDRESS (10 ^ 18) 10 0
        (or_default sample_env None) (Some (BlockNumber 0))) log.
Proof.
  apply (block_zero_reads_latest sample_env (quoted_by_aggregator 5)
           WETH_ADDRESS 18 None); reflexivity.
Defined.

Lemma zero_result_provenance_witness :
  is_stablecoin WETH_ADDRESS = false /\
  (helperQuote sample_env (quoted_by_aggregator 0) WETH_ADDRESS 18 None None
   = Next 0 \/
   helperQuote sample_env (quoted_by_aggregator 0) WETH_ADDRESS 18 None None
   = Error) /\
  In (aggregatorCall sample_env WETH_ADDRESS None None)
     (snd (subscribe
             (getTokenPriceBN sample_env WETH_ADDRESS 18 None None false)
             (quoted_by_aggregator 0))) /\
  impliedOrZero 18
    (aggregatorQuote sample_env (quoted_by_aggregator 0) WETH_ADDRESS None None)
    (feedQuote sample_env (quoted_by_aggregator 0))
  = 0.
Proof.
  apply (zero_result_provenance sample_env (quoted_by_aggregator 0)
           WETH_ADDRESS 18 None None).
  reflexivity.
Defined.

(** ** Arithmetic of the implied price *)

Section Pricing.

Variable env : Environment.

Lemma precision_cancels (n f r : Z) :
  r <> 0 ->
  Z.quot (Z.quot (n * 10 ^ 8 * f) r) (10 ^ 8) = Z.quot (n * f) r.
Proof.
  intros Hr. change (10 ^ 8) with 100000000.
  rewrite Z.quot_quot by lia.
  replace (n * 100000000 * f) with (n * f * 100000000) by ring.
  by rewrite Z.quot_mul_cancel_r by lia.
Qed.

Lemma oneSplit_quoted (w : World) tokenAddress d b a (r f : Z) :
  is_stablecoin tokenAddress = false ->
  aggregatorQuote env w tokenAddress b a = Next r -> r <> 0 ->
  feedQuote env w = Next f ->
  fst (subscribe (getTokenOneSplitPrice env tokenAddress d b a) w)
  = Next (Z.quot (10 ^ Z.of_nat d * f) r).
Proof.
  intros Hst Hagg Hr Hfeed. unfold subscribe.
  rewrite oneSplit_other by done. rewrite Hagg, Hfeed. cbn [fst].
  unfold impliedOrZero. rewrite impliedPrice_formula by done.
  by rewrite precision_cancels.
Qed.

(** X7: the two factors of 10^8 in the implied-price expression cancel
    exactly, for every sign of the operands: with a non-zero
    [returnAmount = r] and a feed reading [f], the price emitted for a
    token of [d] decimals is 10^d * f / r truncated toward zero. *)
Theorem implied_price_precision_cancels (w : World) tokenAddress d b a
    (r f : Z) :
  is_stablecoin tokenAddress = false ->
  aggregatorQuote env w tokenAddress b a = Next r -> r <> 0 ->
  feedQuote env w = Next f ->
  fst (subscribe (getTokenOneSplitPrice env tokenAddress d b a) w)
  = Next (Z.quot (10 ^ Z.of_nat d * f) r).
Proof. apply oneSplit_quoted. Qed.

(** X8: for a positive [returnAmount = r] and a non-negative feed reading
    [f] the implied price [p] is the floor of 10^d * f / r: it is
    non-negative and r * p <= 10^d * f < r * (p + 1). It is the zero
    sentinel exactly when 10^d * f < r, that is when the true price is
    below one unit of the eighth decimal. *)
Theorem implied_price_floor (w : World) tokenAddress d b a (r f : Z) :
  is_stablecoin tokenAddress = false ->
  aggregatorQuote env w tokenAddress b a = Next r -> 0 < r ->
  feedQuote env w = Next f -> 0 <= f ->
  exists p,
    fst (subscribe (getTokenOneSplitPrice env tokenAddress d b a) w) = Next p /\
    0 <= p /\
    r * p <= 10 ^ Z.of_nat d * f < r * (p + 1) /\
    (p = zeroValueBN <-> 10 ^ Z.of_nat d * f < r).
Proof.
  intros Hst Hagg Hr Hfeed Hf.
  assert (Hn : 0 <= 10 ^ Z.of_nat d * f) by (apply Z.mul_nonneg_nonneg; lia).
  exists (10 ^ Z.of_nat d * f / r).
  rewrite (oneSplit_quoted w tokenAddress d b a r f) by (done || lia).
  rewrite Z.quot_div_nonneg by lia.
  repeat split.
  - apply Z.div_pos; lia.
  - apply Z.mul_div_le. lia.
  - rewrite Z.mul_add_distr_l, Z.mul_1_r.
    pose proof (Z.mod_pos_bound (10 ^ Z.of_nat d * f) r Hr).
    pose proof (Z.div_mod (10 ^ Z.of_nat d * f) r). lia.
  - unfold zeroValueBN. intros H0. apply Z.div_small_iff in H0; lia.
  - unfold zeroValueBN. intros Hlt. apply Z.div_small. lia.
Qed.

(** X9: the implied price moves the right way: for the same token, more
    tokens returned per DAI never raise it, and a higher feed reading never
    lowers it (positive [returnAmount], non-negative feed readings). *)
Theorem implied_price_monotone (w1 w2 : World) tokenAddress d b a
    (r1 r2 f1 f2 : Z) :
  is_stablecoin tokenAddress = false ->
  aggregatorQuote env w1 tokenAddress b a = Next r1 ->
  aggregatorQuote env w2 tokenAddress b a = Next r2 ->
  feedQuote env w1 = Next f1 -> feedQuote env w2 = Next f2 ->
  0 < r2 <= r1 -> 0 <= f1 <= f2 ->
  exists p1 p2,
    fst (subscribe (getTokenOneSplitPrice env tokenAddress d b a) w1)
    = Next p1 /\
    fst (subscribe (getTokenOneSplitPrice env tokenAddress d b a) w2)
    = Next p2 /\
    p1 <= p2.
Proof.
  intros Hst Ha1 Ha2 Hf1 Hf2 Hr Hf.
  assert (Hp : 0 <= 10 ^ Z.of_nat d) by (apply Z.pow_nonneg; lia).
  exists (10 ^ Z.of_nat d * f1 / r1), (10 ^ Z.of_nat d * f2 / r2).
  rewrite (oneSplit_quoted w1 tokenAddress d b a r1 f1) by (done || lia).
  rewrite (oneSplit_quoted w2 tokenAddress d b a r2 f2) by (done || lia).
  rewrite !Z.quot_div_nonneg by (try apply Z.mul_nonneg_nonneg; lia).
  repeat split.
  etrans.
  - apply Z.div_le_compat_l with (q := r2); [|lia].
    apply Z.mul_nonneg_nonneg; lia.
  - apply Z.div_le_mono; [lia|]. apply Z.mul_le_mono_nonneg_l; lia.
Qed.

End Pricing.

Lemma implied_price_precision_cancels_witness :
  fst (subscribe (getTokenOneSplitPrice sample_env WETH_ADDRESS 18 None None)
         (quoted_by_aggregator (-3)))
  = Next (Z.quot (10 ^ Z.of_nat 18 * 10 ^ 8) (-3)).
Proof.
  apply (implied_price_precision_cancels sample_env (quoted_by_aggregator (-3))
           WETH_ADDRESS 18 None None (-3) (10 ^ 8));
    try reflexivity. discriminate.
Defined.

Lemma implied_price_floor_witness :
  exists p,
    fst (subscribe (getTokenOneSplitPrice sample_env WETH_ADDRESS 6 None None)
           (quoted_by_aggregator (10 ^ 15)))
    = Next p /\
    0 <= p /\
    10 ^ 15 * p <= 10 ^ Z.of_nat 6 * 10 ^ 8 < 10 ^ 15 * (p + 1) /\
    (p = zeroValueBN <-> 10 ^ Z.of_nat 6 * 10 ^ 8 < 10 ^ 15).
Proof.
  apply (implied_price_floor sample_env (quoted_by_aggregator (10 ^ 15))
           WETH_ADDRESS 6 None None (10 ^ 15) (10 ^ 8));
    try reflexivity; lia.
Defined.

Lemma implied_price_monotone_witness :
  exists p1 p2,
    fst (subscribe (getTokenOneSplitPrice sample_env WETH_ADDRESS 18 None None)
           (quoted_by_aggregator (7 * 10 ^ 17)))
    = Next p1 /\
    fst (subscribe (getTokenOneSplitPrice sample_env WETH_ADDRESS 18 None None)
           (quoted_by_aggregator (5 * 10 ^ 17)))
    = Next p2 /\
    p1 <= p2.
Proof.
  apply (implied_price_monotone sample_env
           (quoted_by_aggregator (7 * 10 ^ 17))
           (quoted_by_aggregator (5 * 10 ^ 17))
           WETH_ADDRESS 18 None None
           (7 * 10 ^ 17) (5 * 10 ^ 17) (10 ^ 8) (10 ^ 8));
    try reflexivity; lia.
Defined.

(** ** Reachable caches *)

#[local] Set Warnings "-clear-no-such-hyp".

Section ReachableCaches.

Variable env : Environment.

Lemma get_property_cases (cache : gmap string nat) (key : string) :
  (exists handle,
     cache !! key = Some handle /\ get_property cache key = SubjectRef handle)
  \/ (cache !! key = None /\ inherited key = true /\
      get_property cache key = ObjectPrototypeMember key)
  \/ (cache !! key = None /\ inherited key = false /\
      get_property cache key = Undefined).
Proof.
  unfold get_property.
  destruct (cache !! key) as [handle|]; [left; eauto|].
  destruct (inherited key); [right; left | right; right]; done.
Qed.

Lemma new_service_consistent : cache_consistent env new_service.
Proof.
  split; [done|]. split.
  - intros key handle H. simpl in H. by rewrite lookup_empty in H.
  - intros k1 k2 handle H. simpl in H. by rewrite lookup_empty in H.
Qed.

Lemma serve_consistent this q :
  cache_consistent env this -> cache_consistent env (snd (serve env this q)).
Proof.
  intros (Hsize & Hkeys & Hinj). unfold serve.
  destruct (getUsdTokenPrice_cases env this (req_tokenAddress q)
              (req_tokenDecimals q) (req_blockNumber q)
              (req_oneSplitAddress q)) as [-> | Hmiss]; [done|].
  rewrite getUsdTokenPrice_miss by done.
  apply get_property_undefined in Hmiss as [Hnone Hinh].
  set (key0 := req_tokenAddress q) in *.
  assert (Hfresh : forall key handle,
    usdPriceCache this !! key = Some handle ->
    (handle < length (subjects this))%nat).
  { intros key handle Hk. destruct (Hkeys key handle Hk) as (_ & ? & ? & ? & Hs).
    by eapply lookup_lt_Some. }
  split; [|split]; cbn [snd usdPriceCache subjects].
  - rewrite map_size_insert_None by done. rewrite length_app. simpl. lia.
  - intros key handle Hk. destruct (decide (key = key0)) as [-> | Hne].
    + rewrite lookup_insert_eq in Hk. injection Hk as <-.
      split; [done|]. eexists _, _, _.
      by rewrite lookup_app_r, Nat.sub_diag.
    + rewrite lookup_insert_ne in Hk by done.
      destruct (Hkeys key handle Hk) as (Hi & d & b & a & Hs).
      split; [done|]. exists d, b, a.
      rewrite lookup_app_l; [done | by eapply lookup_lt_Some].
  - intros k1 k2 handle H1 H2.
    destruct (decide (k1 = key0)) as [-> | Hne1],
             (decide (k2 = key0)) as [-> | Hne2]; [done | | |].
    + rewrite lookup_insert_eq in H1. injection H1 as <-.
      rewrite lookup_insert_ne in H2 by done.
      apply Hfresh in H2. lia.
    + rewrite lookup_insert_eq in H2. injection H2 as <-.
      rewrite lookup_insert_ne in H1 by done.
      apply Hfresh in H1. lia.
    + rewrite lookup_insert_ne in H1, H2 by done. by eapply Hinj.
Qed.

Lemma serve_all_consistent this qs :
  cache_consistent env this -> cache_consistent env (serve_all env this qs).
Proof.
  revert this. induction qs as [|q qs IH]; intros this H; [done|].
  simpl. by apply IH, serve_consistent.
Qed.

(** X10: every cache the service reaches from its initial state has as
    many keys as allocated subjects, binds each key to a subject whose
    factory resolves that very address (with [useOffChain = true] and a
    10000 ms interval), stores no key inherited from [Object.prototype],
    and never lets two addresses share a subject. *)
Theorem reachable_cache_consistent (history : list Request) :
  cache_consistent env (serve_all env new_service history).
Proof. apply serve_all_consistent, new_service_consistent. Qed.

(** X11: a key that names a member of [Object.prototype] (such as
    ["constructor"] or ["toString"]) is never resolved: in every reachable
    state [getUsdTokenPrice] finds the inherited member truthy, returns it
    in place of a subject, and stores nothing. *)
Theorem inherited_key_is_never_resolved (history : list Request) key d b a :
  inherited key = true ->
  let this := serve_all env new_service history in
  usdPriceCache this !! key = None /\
  getUsdTokenPrice env this key d b a = (ObjectPrototypeMember key, this).
Proof.
  intros Hinh this.
  assert (Hnone : usdPriceCache this !! key = None).
  { destruct (usdPriceCache this !! key) as [handle|] eqn:E; [|done].
    destruct (serve_all_consistent new_service history new_service_consistent)
      as (_ & Hkeys & _).
    destruct (Hkeys key handle E) as [Hfalse _]. congruence. }
  split; [done|]. by apply getUsdTokenPrice_inherited.
Qed.

(** X12: in any state whatsoever [getUsdTokenPrice] returns a truthy
    reference, never [undefined], and asking again for the same address,
    with any other arguments, returns the same reference and leaves the
    service as the first call left it. *)
Theorem getUsdTokenPrice_idempotent this key d b a d' b' a' :
  let first := getUsdTokenPrice env this key d b a in
  truthy (fst first) = true /\
  getUsdTokenPrice env (snd first) key d' b' a' = first.
Proof.
  cbv zeta.
  destruct (get_property_cases (usdPriceCache this) key)
    as [(handle & Hk & _) | [(Hnone & Hinh & _) | (Hnone & Hinh & _)]].
  - rewrite (getUsdTokenPrice_hit env this key d b a handle Hk).
    split; [done|]. by apply getUsdTokenPrice_hit.
  - rewrite (getUsdTokenPrice_inherited env this key d b a Hnone Hinh).
    split; [done|]. by apply getUsdTokenPrice_inherited.
  - rewrite getUsdTokenPrice_miss by by apply get_property_undefined.
    split; [done|]. apply getUsdTokenPrice_hit. simpl.
    apply lookup_insert_eq.
Qed.

Lemma serve_dom this q :
  dom (usdPriceCache (snd (serve env this q))) =
  dom (usdPriceCache this) ∪
  (list_to_set (cacheable_addresses [q]) : gset string).
Proof.
  unfold serve, cacheable_addresses. simpl.
  destruct (get_property_cases (usdPriceCache this) (req_tokenAddress q))
    as [(handle & Hk & _) | [(Hnone & Hinh & _) | (Hnone & Hinh & _)]].
  - rewrite (getUsdTokenPrice_hit env this _ _ _ _ handle Hk). simpl.
    apply (elem_of_dom_2 (D := gset string)) in Hk.
    destruct (inherited (req_tokenAddress q)); simpl; set_solver.
  - rewrite getUsdTokenPrice_inherited by done. rewrite Hinh. simpl.
    set_solver.
  - rewrite getUsdTokenPrice_miss by by apply get_property_undefined.
    rewrite Hinh. simpl. rewrite dom_insert_L. set_solver.
Qed.

(** X13: after any run of requests the cache holds exactly the addresses
    it held before together with the requested addresses that are not
    inherited member names; entries are never removed, and an address
    requested many times is held once. *)
Theorem cache_domain (this : TokenPriceService) (rs : list Request) :
  dom (usdPriceCache (serve_all env this rs)) =
  dom (usdPriceCache this) ∪
  (list_to_set (cacheable_addresses rs) : gset string).
Proof.
  revert this. induction rs as [|q rs IH]; intros this.
  - unfold cacheable_addresses. simpl. set_solver.
  - simpl. rewrite IH, serve_dom.
    unfold cacheable_addresses. simpl.
    destruct (negb (inherited (req_tokenAddress q))); simpl; set_solver.
Qed.

End ReachableCaches.

Lemma inherited_key_is_never_resolved_witness :
  getUsdTokenPrice sample_env
    (serve_all sample_env new_service [request_for DAI_ADDRESS 18])
    "constructor" 18 None None
  = (ObjectPrototypeMember "constructor",
     serve_all sample_env new_service [request_for DAI_ADDRESS 18]).
Proof.
  apply (inherited_key_is_never_resolved sample_env
           [request_for DAI_ADDRESS 18] "constructor" 18 None None).
  reflexivity.
Defined.
